(** * The poll model and its management callbacks

    A shallow embedding of [pollbot/models/poll.py] (the [Poll] model with
    [should_show_result], [set_due_date] and [clone]) and of
    [pollbot/telegram/callback_handler/management.py] ([close_poll],
    [reopen_poll], [reset_poll]), with the properties of the due-date
    scheduler, of the poll life cycle and of cloning. *)

From Stdlib Require Import ZArith Lia Bool.
From stdpp Require Import base option list gmap strings.

Local Open Scope Z_scope.

(** ** Python values *)

(** A naive [datetime.datetime] is the number of microseconds since
    [datetime.min], 0001-01-01T00:00:00.  Python bounds the type by
    [datetime.max], 9999-12-31T23:59:59.999999, whose date has the ordinal
    3652059.  A [datetime.timedelta] is a number of microseconds. *)
Module datetime.

Definition microseconds_per_hour : Z := 3600 * 1000000.
Definition microseconds_per_day : Z := 24 * microseconds_per_hour.

Definition min : Z := 0.
Definition max : Z := 3652059 * microseconds_per_day - 1.

Definition in_range (d : Z) : bool := (min <=? d) && (d <=? max).

(** [timedelta(days=d, hours=h)] *)
Definition timedelta (days hours : Z) : Z :=
  days * microseconds_per_day + hours * microseconds_per_hour.

End datetime.

(** The exceptions that the modelled code can raise. *)
Inductive exn : Type :=
  | OverflowError        (* datetime arithmetic leaves [min, max] *)
  | TypeError            (* arithmetic on None *)
  | ObjectDeletedError.  (* attribute access on an object with no row *)

Inductive outcome (A : Type) : Type :=
  | Returned (a : A)
  | Raised (e : exn).
Arguments Returned {A} a.
Arguments Raised {A} e.

(** ** Computations that mutate a state and may raise

    What a Python statement did to the state before an exception is kept:
    an assignment is not undone when a later line raises. *)
Definition M (S A : Type) : Type := S -> outcome A * S.

Global Instance M_ret {S} : MRet (M S) :=
  fun A (a : A) s => (Returned a, s).

Global Instance M_bind {S} : MBind (M S) :=
  fun A B (k : A -> M S B) (m : M S A) s =>
    match m s with
    | (Returned a, s') => k a s'
    | (Raised e, s') => (Raised e, s')
    end.

Definition raise {S A} (e : exn) : M S A := fun s => (Raised e, s).
Definition gets {S A} (f : S -> A) : M S A := fun s => (Returned (f s), s).
Definition modify {S} (f : S -> S) : M S unit := fun s => (Returned tt, f s).

(** [for x in l: body x] *)
Fixpoint for_each {S A} (l : list A) (body : A -> M S unit) : M S unit :=
  match l with
  | [] => mret tt
  | x :: l' => body x ;; for_each l' body
  end.

(** [datetime - timedelta]: Python raises OverflowError ("date value out of
    range") when the difference is not a datetime. *)
Definition datetime_sub {S} (d td : Z) : M S Z :=
  if datetime.in_range (d - td) then mret (d - td) else raise OverflowError.

(** ** The Poll model *)

Definition PollId : Type := Z.
Definition UserId : Type := Z.

(** The columns of table [poll] that the code writes, with the relationship
    [user] as the owner's key.  The primary key is the poll's handle in the
    session; [uuid], [created_at], [updated_at] and [current_date] are filled
    in by the database server and no code of this module reads them. *)
Record Poll : Type := {
  user : UserId;
  (* Options *)
  name : option string;
  description : option string;
  locale : option string;
  poll_type : string;
  anonymous : bool;
  number_of_votes : option Z;
  allow_new_options : bool;
  option_sorting : string;
  user_sorting : string;
  results_visible : bool;
  show_percentage : bool;
  european_date_format : bool;
  (* Flags *)
  created : bool;
  closed : bool;
  due_date : option Z;
  next_notification : option Z;
  (* Chat state variables *)
  expected_input : option string;
  in_settings : bool;
}.

(** Attribute assignment, [self.<column> = v]. *)
Definition set_name v (p : Poll) : Poll :=
  {| user := user p; name := v; description := description p; locale := locale p;
     poll_type := poll_type p; anonymous := anonymous p;
     number_of_votes := number_of_votes p; allow_new_options := allow_new_options p;
     option_sorting := option_sorting p; user_sorting := user_sorting p;
     results_visible := results_visible p; show_percentage := show_percentage p;
     european_date_format := european_date_format p; created := created p;
     closed := closed p; due_date := due_date p;
     next_notification := next_notification p;
     expected_input := expected_input p; in_settings := in_settings p |}.

Definition set_description v (p : Poll) : Poll :=
  {| user := user p; name := name p; description := v; locale := locale p;
     poll_type := poll_type p; anonymous := anonymous p;
     number_of_votes := number_of_votes p; allow_new_options := allow_new_options p;
     option_sorting := option_sorting p; user_sorting := user_sorting p;
     results_visible := results_visible p; show_percentage := show_percentage p;
     european_date_format := european_date_format p; created := created p;
     closed := closed p; due_date := due_date p;
     next_notification := next_notification p;
     expected_input := expected_input p; in_settings := in_settings p |}.

Definition set_poll_type v (p : Poll) : Poll :=
  {| user := user p; name := name p; description := description p; locale := locale p;
     poll_type := v; anonymous := anonymous p;
     number_of_votes := number_of_votes p; allow_new_options := allow_new_options p;
     option_sorting := option_sorting p; user_sorting := user_sorting p;
     results_visible := results_visible p; show_percentage := show_percentage p;
     european_date_format := european_date_format p; created := created p;
     closed := closed p; due_date := due_date p;
     next_notification := next_notification p;
     expected_input := expected_input p; in_settings := in_settings p |}.

Definition set_anonymous v (p : Poll) : Poll :=
  {| user := user p; name := name p; description := description p; locale := locale p;
     poll_type := poll_type p; anonymous := v;
     number_of_votes := number_of_votes p; allow_new_options := allow_new_options p;
     option_sorting := option_sorting p; user_sorting := user_sorting p;
     results_visible := results_visible p; show_percentage := show_percentage p;
     european_date_format := european_date_format p; created := created p;
     closed := closed p; due_date := due_date p;
     next_notification := next_notification p;
     expected_input := expected_input p; in_settings := in_settings p |}.

Definition set_number_of_votes v (p : Poll) : Poll :=
  {| user := user p; name := name p; description := description p; locale := locale p;
     poll_type := poll_type p; anonymous := anonymous p;
     number_of_votes := v; allow_new_options := allow_new_options p;
     option_sorting := option_sorting p; user_sorting := user_sorting p;
     results_visible := results_visible p; show_percentage := show_percentage p;
     european_date_format := european_date_format p; created := created p;
     closed := closed p; due_date := due_date p;
     next_notification := next_notification p;
     expected_input := expected_input p; in_settings := in_settings p |}.

Definition set_allow_new_options v (p : Poll) : Poll :=
  {| user := user p; name := name p; description := description p; locale := locale p;
     poll_type := poll_type p; anonymous := anonymous p;
     number_of_votes := number_of_votes p; allow_new_options := v;
     option_sorting := option_sorting p; user_sorting := user_sorting p;
     results_visible := results_visible p; show_percentage := show_percentage p;
     european_date_format := european_date_format p; created := created p;
     closed := closed p; due_date := due_date p;
     next_notification := next_notification p;
     expected_input := expected_input p; in_settings := in_settings p |}.

Definition set_option_sorting v (p : Poll) : Poll :=
  {| user := user p; name := name p; description := description p; locale := locale p;
     poll_type := poll_type p; anonymous := anonymous p;
     number_of_votes := number_of_votes p; allow_new_options := allow_new_options p;
     option_sorting := v; user_sorting := user_sorting p;
     results_visible := results_visible p; show_percentage := show_percentage p;
     european_date_format := european_date_format p; created := created p;
     closed := closed p; due_date := due_date p;
     next_notification := next_notification p;
     expected_input := expected_input p; in_settings := in_settings p |}.

Definition set_user_sorting v (p : Poll) : Poll :=
  {| user := user p; name := name p; description := description p; locale := locale p;
     poll_type := poll_type p; anonymous := anonymous p;
     number_of_votes := number_of_votes p; allow_new_options := allow_new_options p;
     option_sorting := option_sorting p; user_sorting := v;
     results_visible := results_visible p; show_percentage := show_percentage p;
     european_date_format := european_date_format p; created := created p;
     closed := closed p; due_date := due_date p;
     next_notification := next_notification p;
     expected_input := expected_input p; in_settings := in_settings p |}.

Definition set_results_visible v (p : Poll) : Poll :=
  {| user := user p; name := name p; description := description p; locale := locale p;
     poll_type := poll_type p; anonymous := anonymous p;
     number_of_votes := number_of_votes p; allow_new_options := allow_new_options p;
     option_sorting := option_sorting p; user_sorting := user_sorting p;
     results_visible := v; show_percentage := show_percentage p;
     european_date_format := european_date_format p; created := created p;
     closed := closed p; due_date := due_date p;
     next_notification := next_notification p;
     expected_input := expected_input p; in_settings := in_settings p |}.

Definition set_show_percentage v (p : Poll) : Poll :=
  {| user := user p; name := name p; description := description p; locale := locale p;
     poll_type := poll_type p; anonymous := anonymous p;
     number_of_votes := number_of_votes p; allow_new_options := allow_new_options p;
     option_sorting := option_sorting p; user_sorting := user_sorting p;
     results_visible := results_visible p; show_percentage := v;
     european_date_format := european_date_format p; created := created p;
     closed := closed p; due_date := due_date p;
     next_notification := next_notification p;
     expected_input := expected_input p; in_settings := in_settings p |}.

Definition set_created v (p : Poll) : Poll :=
  {| user := user p; name := name p; description := description p; locale := locale p;
     poll_type := poll_type p; anonymous := anonymous p;
     number_of_votes := number_of_votes p; allow_new_options := allow_new_options p;
     option_sorting := option_sorting p; user_sorting := user_sorting p;
     results_visible := results_visible p; show_percentage := show_percentage p;
     european_date_format := european_date_format p; created := v;
     closed := closed p; due_date := due_date p;
     next_notification := next_notification p;
     expected_input := expected_input p; in_settings := in_settings p |}.

Definition set_closed v (p : Poll) : Poll :=
  {| user := user p; name := name p; description := description p; locale := locale p;
     poll_type := poll_type p; anonymous := anonymous p;
     number_of_votes := number_of_votes p; allow_new_options := allow_new_options p;
     option_sorting := option_sorting p; user_sorting := user_sorting p;
     results_visible := results_visible p; show_percentage := show_percentage p;
     european_date_format := european_date_format p; created := created p;
     closed := v; due_date := due_date p;
     next_notification := next_notification p;
     expected_input := expected_input p; in_settings := in_settings p |}.

Definition set_due_date_column v (p : Poll) : Poll :=
  {| user := user p; name := name p; description := description p; locale := locale p;
     poll_type := poll_type p; anonymous := anonymous p;
     number_of_votes := number_of_votes p; allow_new_options := allow_new_options p;
     option_sorting := option_sorting p; user_sorting := user_sorting p;
     results_visible := results_visible p; show_percentage := show_percentage p;
     european_date_format := european_date_format p; created := created p;
     closed := closed p; due_date := v;
     next_notification := next_notification p;
     expected_input := expected_input p; in_settings := in_settings p |}.

Definition set_next_notification v (p : Poll) : Poll :=
  {| user := user p; name := name p; description := description p; locale := locale p;
     poll_type := poll_type p; anonymous := anonymous p;
     number_of_votes := number_of_votes p; allow_new_options := allow_new_options p;
     option_sorting := option_sorting p; user_sorting := user_sorting p;
     results_visible := results_visible p; show_percentage := show_percentage p;
     european_date_format := european_date_format p; created := created p;
     closed := closed p; due_date := due_date p;
     next_notification := v;
     expected_input := expected_input p; in_settings := in_settings p |}.

(** [Poll.__init__(self, user)] together with the columns' [default=]
    (and, for [locale], [server_default=]) values, which the row takes when
    it is inserted; a column with neither is NULL.  The enum member names
    [PollType.single_vote.name], [UserSorting.user_chrono.name] and
    [OptionSorting.option_chrono.name] are the members' names as strings. *)
Definition Poll_init (u : UserId) : Poll :=
  {| user := u;
     name := None;
     description := None;
     locale := Some "english"%string;
     poll_type := "single_vote"%string;
     anonymous := false;
     number_of_votes := None;
     allow_new_options := false;
     option_sorting := "option_chrono"%string;
     user_sorting := "user_chrono"%string;
     results_visible := true;
     show_percentage := true;
     european_date_format := false;
     created := false;
     closed := false;
     due_date := None;
     next_notification := None;
     expected_input := None;
     in_settings := false |}.

(** [Poll.should_show_result] *)
Definition should_show_result (self : Poll) : bool :=
  results_visible self || closed self.

(** [self.due_date - timedelta(...)] *)
Definition due_date_minus (td : Z) : M Poll Z :=
  d ← gets due_date;
  match d with
  | Some d => datetime_sub d td
  | None => raise TypeError
  end.

(** [Poll.set_due_date]; [now] is the value of [datetime.now()]. *)
Definition set_due_date (now : Z) (date : Z) : M Poll unit :=
  modify (set_due_date_column (Some date));;
  t7 ← due_date_minus (datetime.timedelta 7 0);
  if now <? t7 then
    v ← due_date_minus (datetime.timedelta 7 0);
    modify (set_next_notification (Some v))
  else
    t1 ← due_date_minus (datetime.timedelta 1 0);
    if now <? t1 then
      v ← due_date_minus (datetime.timedelta 1 0);
      modify (set_next_notification (Some v))
    else
      t6 ← due_date_minus (datetime.timedelta 0 6);
      if now <? t6 then
        v ← due_date_minus (datetime.timedelta 0 6);
        modify (set_next_notification (Some v))
      else
        v ← gets due_date;
        modify (set_next_notification v).

(** ** Rows owned by a poll *)

(** Modelled from the spec: the classes [PollOption], [Vote], [Reference]
    and [Notification] are not among the sources.  An option belongs to one
    poll and carries its name (for a date option, the date as text); a vote
    is one user's vote for one option of one poll; a reference is a message
    in which the poll is rendered; a notification is a reminder record. *)
Record PollOption : Type := {
  option_poll : PollId;
  option_name : string;
}.

Record Vote : Type := {
  vote_poll : PollId;
  vote_option : Z;
  vote_user : UserId;
}.

Record Reference : Type := {
  reference_poll : PollId;
  reference_message : Z;
}.

Record Notification : Type := {
  notification_poll : PollId;
  notification_chat : Z;
}.

(** Modelled from the spec: [PollOption(poll, name)], a new option under
    [poll] with that name. *)
Definition PollOption_init (poll : PollId) (n : string) : PollOption :=
  {| option_poll := poll; option_name := n |}.

(** ** The session

    The objects that the SQLAlchemy session holds, by table.  A poll object
    is reached through its handle, its primary key; the rows of the other
    tables are kept with their primary keys, in insertion order.  Each
    [*_id_seq] is the key that the next inserted row takes. *)
Record Session : Type := {
  polls : gmap Z Poll;
  poll_id_seq : Z;
  poll_options : list (Z * PollOption);
  poll_option_id_seq : Z;
  votes : list (Z * Vote);
  references : list (Z * Reference);
  notifications : list (Z * Notification);
}.

Definition set_polls (m : gmap Z Poll) (s : Session) : Session :=
  {| polls := m; poll_id_seq := poll_id_seq s;
     poll_options := poll_options s; poll_option_id_seq := poll_option_id_seq s;
     votes := votes s; references := references s;
     notifications := notifications s |}.

Definition set_votes (l : list (Z * Vote)) (s : Session) : Session :=
  {| polls := polls s; poll_id_seq := poll_id_seq s;
     poll_options := poll_options s; poll_option_id_seq := poll_option_id_seq s;
     votes := l; references := references s;
     notifications := notifications s |}.

(** [poll.<column>] *)
Definition getattr {A} (poll : PollId) (column : Poll -> A) : M Session A :=
  fun s =>
    match polls s !! poll with
    | Some p => (Returned (column p), s)
    | None => (Raised ObjectDeletedError, s)
    end.

(** [poll.<column> = v], with [assign] the column's assignment at [v] *)
Definition setattr (poll : PollId) (assign : Poll -> Poll) : M Session unit :=
  fun s =>
    match polls s !! poll with
    | Some p => (Returned tt, set_polls (<[poll := assign p]> (polls s)) s)
    | None => (Raised ObjectDeletedError, s)
    end.

(** [poll.method(...)] for a method that works on the poll's own columns *)
Definition call {A} (poll : PollId) (method : M Poll A) : M Session A :=
  fun s =>
    match polls s !! poll with
    | Some p =>
        let '(r, p') := method p in
        (r, set_polls (<[poll := p']> (polls s)) s)
    | None => (Raised ObjectDeletedError, s)
    end.

(** [session.add(poll)] for a new poll; the result is the new object's
    handle.  The row takes its key, the next of the sequence, when it is
    added: the code reads no key between [session.add] and the commit, and
    the database inserts the rows of a table in the order of their addition. *)
Definition session_add_poll (p : Poll) : M Session PollId :=
  fun s =>
    (Returned (poll_id_seq s),
     {| polls := <[poll_id_seq s := p]> (polls s);
        poll_id_seq := poll_id_seq s + 1;
        poll_options := poll_options s;
        poll_option_id_seq := poll_option_id_seq s;
        votes := votes s; references := references s;
        notifications := notifications s |}).

(** [session.add(new_option)] *)
Definition session_add_option (o : PollOption) : M Session unit :=
  fun s =>
    (Returned tt,
     {| polls := polls s; poll_id_seq := poll_id_seq s;
        poll_options := poll_options s ++ [(poll_option_id_seq s, o)];
        poll_option_id_seq := poll_option_id_seq s + 1;
        votes := votes s; references := references s;
        notifications := notifications s |}).

(** [session.delete(vote)] *)
Definition session_delete_vote (vote : Z * Vote) : M Session unit :=
  modify (fun s => set_votes (filter (fun r => r.1 ≠ vote.1) (votes s)) s).

(** [order_by='asc(PollOption.id)'] *)
Fixpoint insert_by_id {A} (r : Z * A) (l : list (Z * A)) : list (Z * A) :=
  match l with
  | [] => [r]
  | r' :: l' => if r.1 <=? r'.1 then r :: l else r' :: insert_by_id r l'
  end.

Definition order_by_id {A} (l : list (Z * A)) : list (Z * A) :=
  foldr insert_by_id [] l.

(** The relationships [Poll.options], [Poll.votes], [Poll.references] and
    [Poll.notifications]: the rows whose foreign key is the poll. *)
Definition Poll_options (s : Session) (poll : PollId) : list (Z * PollOption) :=
  order_by_id (filter (fun r => option_poll r.2 = poll) (poll_options s)).

Definition Poll_votes (s : Session) (poll : PollId) : list (Z * Vote) :=
  filter (fun r => vote_poll r.2 = poll) (votes s).

Definition Poll_references (s : Session) (poll : PollId) : list (Z * Reference) :=
  filter (fun r => reference_poll r.2 = poll) (references s).

Definition Poll_notifications (s : Session) (poll : PollId)
  : list (Z * Notification) :=
  filter (fun r => notification_poll r.2 = poll) (notifications s).

(** [Poll.clone]; [self] is the handle of the poll that is cloned. *)
Definition clone (self : PollId) : M Session PollId :=
  u ← getattr self user;
  poll ← session_add_poll (set_created true (Poll_init u));
  v ← getattr self name; setattr poll (set_name v);;
  v ← getattr self description; setattr poll (set_description v);;
  v ← getattr self poll_type; setattr poll (set_poll_type v);;
  v ← getattr self anonymous; setattr poll (set_anonymous v);;
  v ← getattr self number_of_votes; setattr poll (set_number_of_votes v);;
  v ← getattr self allow_new_options; setattr poll (set_allow_new_options v);;
  v ← getattr self option_sorting; setattr poll (set_option_sorting v);;
  v ← getattr self user_sorting; setattr poll (set_user_sorting v);;
  v ← getattr self results_visible; setattr poll (set_results_visible v);;
  v ← getattr self show_percentage; setattr poll (set_show_percentage v);;
  options ← gets (fun s => Poll_options s self);
  for_each options (fun option =>
    session_add_option (PollOption_init poll (option_name option.2)));;
  mret poll.

(** ** The management callbacks

    What a callback does to its collaborators ([session.commit()], the
    re-rendering of the poll's messages, the answer to the callback query) is
    recorded as a list of events, oldest first.  An answer is the key of its
    text and the user in whose locale [i18n.t] renders it. *)
Inductive Event : Type :=
  | Commit
  | UpdatePollMessages (poll : PollId)
  | QueryAnswer (key : string) (u : UserId).

Record World : Type := {
  session : Session;
  events : list Event;
}.

Definition in_session {A} (m : M Session A) : M World A :=
  fun w =>
    let '(r, s') := m (session w) in
    (r, {| session := s'; events := events w |}).

Definition emit (e : Event) : M World unit :=
  modify (fun w => {| session := session w; events := events w ++ [e] |}).

(** [close_poll] *)
Definition close_poll (poll : PollId) : M World unit :=
  in_session (setattr poll (set_closed true));;
  emit Commit;;
  emit (UpdatePollMessages poll);;
  u ← in_session (getattr poll user);
  emit (QueryAnswer "callback.closed" u).

(** [reopen_poll]; [now] is the value of [datetime.now()]. *)
Definition reopen_poll (now : Z) (poll : PollId) : M World unit :=
  visible ← in_session (getattr poll results_visible);
  if negb visible then
    u ← in_session (getattr poll user);
    emit (QueryAnswer "callback.cannot_reopen" u)
  else
    in_session (setattr poll (set_closed false));;
    d ← in_session (getattr poll due_date);
    (if match d with Some d => d <=? now | None => false end then
       in_session (setattr poll (set_due_date_column None));;
       in_session (setattr poll (set_next_notification None))
     else mret tt);;
    emit Commit;;
    emit (UpdatePollMessages poll).

(** [reset_poll] *)
Definition reset_poll (poll : PollId) : M World unit :=
  poll_votes ← in_session (gets (fun s => Poll_votes s poll));
  for_each poll_votes (fun vote => in_session (session_delete_vote vote));;
  emit Commit;;
  emit (UpdatePollMessages poll);;
  u ← in_session (getattr poll user);
  emit (QueryAnswer "callback.votes_removed" u).

(** ** The other methods of the model and [clone_poll] *)

(** The loop of [Poll.has_date_option]: the first option that is a date
    ends it.  [is_date] is the column [PollOption.is_date], whose class is
    not among the sources: it is taken as the flag of each option row. *)
Fixpoint has_date_option_loop (is_date : Z * PollOption -> bool)
    (options : list (Z * PollOption)) : bool :=
  match options with
  | [] => false
  | option :: options' =>
      if is_date option then true else has_date_option_loop is_date options'
  end.

(** [Poll.has_date_option] *)
Definition has_date_option (is_date : Z * PollOption -> bool)
    (s : Session) (self : PollId) : bool :=
  has_date_option_loop is_date (Poll_options s self).

(** [Poll.get_formatted_due_date].  [strftime] is [datetime.strftime] of the
    Python library, at a datetime and a format.  On a poll without a due date
    the call [self.due_date.strftime] is on None, and Python raises
    AttributeError: the result is then [None]. *)
Definition get_formatted_due_date (strftime : Z -> string -> string)
    (self : Poll) : option string :=
  if european_date_format self then
    d ← due_date self; Some (strftime d "%d.%m.%Y %H:%M UTC"%string)
  else
    d ← due_date self; Some (strftime d "%Y-%m-%d %H:%M UTC"%string).

(** [clone_poll] also sends a message to the chat,
    [context.tg_chat.send_message]: an event of its own, recorded among the
    events of the other collaborators by the poll whose text and keyboard it
    renders. *)
Inductive ChatEvent : Type :=
  | Callback (e : Event)
  | SendPollMessage (poll : PollId).

Record Chat : Type := {
  chat_session : Session;
  chat_events : list ChatEvent;
}.

Definition in_chat_session {A} (m : M Session A) : M Chat A :=
  fun c =>
    let '(r, s') := m (chat_session c) in
    (r, {| chat_session := s'; chat_events := chat_events c |}).

Definition chat_emit (e : ChatEvent) : M Chat unit :=
  modify (fun c =>
    {| chat_session := chat_session c; chat_events := chat_events c ++ [e] |}).

(** [clone_poll] *)
Definition clone_poll (poll : PollId) : M Chat unit :=
  new_poll ← in_chat_session (clone poll);
  chat_emit (Callback Commit);;
  chat_emit (SendPollMessage new_poll);;
  u ← in_chat_session (getattr poll user);
  chat_emit (Callback (QueryAnswer "callback.cloned" u)).

(** ** Closed forms and invariants

    What each operation computes, written without the monad; the lemmas of
    the next part prove that the operations above compute exactly this. *)

(** The outcome of [set_due_date]. *)
Definition set_due_date_result (now date : Z) (p : Poll) : outcome unit * Poll :=
  let p1 := set_due_date_column (Some date) p in
  let d7 := date - datetime.timedelta 7 0 in
  let d1 := date - datetime.timedelta 1 0 in
  let h6 := date - datetime.timedelta 0 6 in
  if negb (datetime.in_range d7) then (Raised OverflowError, p1)
  else if now <? d7 then (Returned tt, set_next_notification (Some d7) p1)
  else if negb (datetime.in_range d1) then (Raised OverflowError, p1)
  else if now <? d1 then (Returned tt, set_next_notification (Some d1) p1)
  else if negb (datetime.in_range h6) then (Raised OverflowError, p1)
  else if now <? h6 then (Returned tt, set_next_notification (Some h6) p1)
  else (Returned tt, set_next_notification (Some date) p1).

(** The value that [set_due_date] gives [next_notification] when it
    returns. *)
Definition notification_tier (now date : Z) : Z :=
  if now <? date - datetime.timedelta 7 0 then date - datetime.timedelta 7 0
  else if now <? date - datetime.timedelta 1 0 then date - datetime.timedelta 1 0
  else if now <? date - datetime.timedelta 0 6 then date - datetime.timedelta 0 6
  else date.

(** The poll that [reopen_poll] leaves when the results are visible. *)
Definition reopened (now : Z) (p : Poll) : Poll :=
  match due_date p with
  | Some d =>
      if d <=? now
      then set_next_notification None (set_due_date_column None (set_closed false p))
      else set_closed false p
  | None => set_closed false p
  end.

(** The session once the votes [l] are deleted. *)
Definition without_votes (l : list (Z * Vote)) (s : Session) : Session :=
  set_votes (filter (fun r => r.1 ∉ l.*1) (votes s)) s.

(** Rows inserted one after the other, the first with key [i]. *)
Fixpoint rows_from {A} (i : Z) (l : list A) : list (Z * A) :=
  match l with
  | [] => []
  | x :: l' => (i, x) :: rows_from (i + 1) l'
  end.

(** The options that [clone] creates under [poll] from the options of the
    source. *)
Definition clone_options (poll : PollId) (options : list (Z * PollOption))
  : list PollOption :=
  map (fun option => PollOption_init poll (option_name option.2)) options.

(** The poll that [clone] creates from the poll [p]. *)
Definition clone_of (p : Poll) : Poll :=
  {| user := user p;
     name := name p;
     description := description p;
     locale := Some "english"%string;
     poll_type := poll_type p;
     anonymous := anonymous p;
     number_of_votes := number_of_votes p;
     allow_new_options := allow_new_options p;
     option_sorting := option_sorting p;
     user_sorting := user_sorting p;
     results_visible := results_visible p;
     show_percentage := show_percentage p;
     european_date_format := false;
     created := true;
     closed := false;
     due_date := None;
     next_notification := None;
     expected_input := None;
     in_settings := false |}.

(** The session after [clone] of the poll [p] with handle [self]. *)
Definition cloned (self : PollId) (p : Poll) (s : Session) : Session :=
  {| polls := <[poll_id_seq s := clone_of p]> (polls s);
     poll_id_seq := poll_id_seq s + 1;
     poll_options :=
       poll_options s ++
       rows_from (poll_option_id_seq s)
         (clone_options (poll_id_seq s) (Poll_options s self));
     poll_option_id_seq :=
       poll_option_id_seq s + Z.of_nat (length (Poll_options s self));
     votes := votes s; references := references s;
     notifications := notifications s |}.

(** What the database guarantees of a session: primary keys are below their
    sequences, and every foreign key to [poll] is the key of a poll. *)
Record wf_session (s : Session) : Prop := {
  wf_poll_keys : forall i p, polls s !! i = Some p -> i < poll_id_seq s;
  wf_option_keys : Forall (fun r => r.1 < poll_option_id_seq s) (poll_options s);
  wf_option_poll :
    Forall (fun r => is_Some (polls s !! option_poll r.2)) (poll_options s);
  wf_vote_poll : Forall (fun r => is_Some (polls s !! vote_poll r.2)) (votes s);
  wf_reference_poll :
    Forall (fun r => is_Some (polls s !! reference_poll r.2)) (references s);
  wf_notification_poll :
    Forall (fun r => is_Some (polls s !! notification_poll r.2)) (notifications s);
}.

(** [next_notification], when it is not NULL, is at most [due_date]. *)
Definition notification_before_due (p : Poll) : bool :=
  match next_notification p, due_date p with
  | None, _ => true
  | Some n, Some d => n <=? d
  | Some _, None => false
  end.

Definition session_invariant (s : Session) : Prop :=
  forall i p, polls s !! i = Some p -> notification_before_due p = true.

(** The events that a callback added to those of [w]. *)
Definition emitted (w w' : World) : list Event :=
  drop (length (events w)) (events w').

(** A session with one poll, its two options, a vote, a reference and a
    notification. *)
Definition example_poll : Poll :=
  set_name (Some "Lunch?"%string) (set_created true (Poll_init 7)).

Definition example_session : Session :=
  {| polls := {[ 1 := example_poll ]};
     poll_id_seq := 2;
     poll_options :=
       [(1, PollOption_init 1 "Pizza"); (2, PollOption_init 1 "Sushi")];
     poll_option_id_seq := 3;
     votes := [(1, {| vote_poll := 1; vote_option := 2; vote_user := 7 |})];
     references := [(1, {| reference_poll := 1; reference_message := 40 |})];
     notifications := [(1, {| notification_poll := 1; notification_chat := 9 |})] |}.

Definition example_world : World :=
  {| session := example_session; events := [] |}.

(** The same poll, closed, with a due date and a next notification. *)
Definition example_closed_poll : Poll :=
  set_next_notification (Some 63839836800000000)
    (set_due_date_column (Some 63840441600000000)
       (set_closed true example_poll)).

(** ** Running the computations *)

(** *** Lists of rows *)

Lemma filter_none {A} (P : A -> Prop) `{!∀ x, Decision (P x)} (l : list A) :
  (∀ x, x ∈ l -> ¬ P x) -> filter P l = [].
Proof.
  induction l as [|x l IH]; intros Hl; [done|].
  rewrite filter_cons_False by (apply Hl; left).
  apply IH. intros y Hy. apply Hl. now right.
Qed.

Lemma filter_all {A} (P : A -> Prop) `{!∀ x, Decision (P x)} (l : list A) :
  (∀ x, x ∈ l -> P x) -> filter P l = l.
Proof.
  induction l as [|x l IH]; intros Hl; [done|].
  rewrite filter_cons_True by (apply Hl; left).
  f_equal. apply IH. intros y Hy. apply Hl. now right.
Qed.

Lemma filter_ext_elem {A} (P Q : A -> Prop)
    `{!∀ x, Decision (P x), !∀ x, Decision (Q x)} (l : list A) :
  (∀ x, x ∈ l -> P x <-> Q x) -> filter P l = filter Q l.
Proof.
  induction l as [|x l IH]; intros Hl; [done|].
  rewrite !filter_cons.
  rewrite IH by (intros y Hy; apply Hl; now right).
  apply decide_ext. apply Hl. left.
Qed.

Lemma fst_inj_NoDup {A} (l : list (Z * A)) r r' :
  NoDup l.*1 -> r ∈ l -> r' ∈ l -> r.1 = r'.1 -> r = r'.
Proof.
  induction l as [|x l IH]; cbn; intros Hnd Hr Hr' E.
  - now apply elem_of_nil in Hr.
  - apply NoDup_cons in Hnd as [Hx Hnd].
    apply elem_of_cons in Hr as [->|Hr]; apply elem_of_cons in Hr' as [->|Hr'].
    + reflexivity.
    + exfalso. apply Hx. rewrite E. apply list_elem_of_fmap. now exists r'.
    + exfalso. apply Hx. rewrite <- E. apply list_elem_of_fmap. now exists r.
    + now apply IH.
Qed.

Lemma insert_by_id_elem {A} (r x : Z * A) l :
  x ∈ insert_by_id r l <-> x = r \/ x ∈ l.
Proof.
  induction l as [|y l IH]; cbn.
  - rewrite list_elem_of_singleton, elem_of_nil. tauto.
  - destruct (r.1 <=? y.1).
    + rewrite elem_of_cons. tauto.
    + rewrite !elem_of_cons, IH. tauto.
Qed.

Lemma order_by_id_elem {A} (x : Z * A) l : x ∈ order_by_id l <-> x ∈ l.
Proof.
  unfold order_by_id. induction l as [|y l IH]; cbn; [tauto|].
  rewrite insert_by_id_elem, elem_of_cons, IH. tauto.
Qed.

Lemma rows_from_snd {A} (i : Z) (l : list A) : (rows_from i l).*2 = l.
Proof. revert i. induction l as [|x l IH]; intros i; cbn; [done|]. now rewrite IH. Qed.

Lemma rows_from_map_snd {A B} (f : A -> B) (i : Z) (l : list A) :
  map (fun r => f r.2) (rows_from i l) = map f l.
Proof. revert i. induction l as [|x l IH]; intros i; cbn; [done|]. now rewrite IH. Qed.

Lemma rows_from_elem_snd {A} (i : Z) (l : list A) r : r ∈ rows_from i l -> r.2 ∈ l.
Proof.
  intros Hr. rewrite <- (rows_from_snd i l). apply list_elem_of_fmap. now exists r.
Qed.

Lemma rows_from_fst_ge {A} (i : Z) (l : list A) r : r ∈ rows_from i l -> i <= r.1.
Proof.
  revert i. induction l as [|x l IH]; intros i; cbn.
  - intros []%elem_of_nil.
  - intros [->|Hr]%elem_of_cons; [cbn; lia|]. apply IH in Hr. lia.
Qed.

Lemma rows_from_fst_lt {A} (i : Z) (l : list A) r :
  r ∈ rows_from i l -> r.1 < i + Z.of_nat (length l).
Proof.
  revert i. induction l as [|x l IH]; intros i; cbn [rows_from length].
  - intros []%elem_of_nil.
  - intros [->|Hr]%elem_of_cons; [cbn; lia|]. apply IH in Hr. lia.
Qed.

Lemma order_by_id_rows_from {A} (i : Z) (l : list A) :
  order_by_id (rows_from i l) = rows_from i l.
Proof.
  revert i. induction l as [|x l IH]; intros i; [reflexivity|].
  cbn [rows_from]. unfold order_by_id in *. cbn [foldr]. rewrite IH.
  destruct l as [|y l]; [reflexivity|]. cbn.
  destruct (Z.leb_spec i (i + 1)); [reflexivity|lia].
Qed.

(** *** Steps of a computation *)

Lemma bind_run {S A B} (m : M S A) (k : A -> M S B) s :
  (m ≫= k) s =
  match m s with (Returned a, s') => k a s' | (Raised e, s') => (Raised e, s') end.
Proof. reflexivity. Qed.

Lemma getattr_run {A} (column : Poll -> A) poll p s :
  polls s !! poll = Some p -> getattr poll column s = (Returned (column p), s).
Proof. intros H. unfold getattr. now rewrite H. Qed.

Lemma setattr_run assign poll p s :
  polls s !! poll = Some p ->
  setattr poll assign s = (Returned tt, set_polls (<[poll := assign p]> (polls s)) s).
Proof. intros H. unfold setattr. now rewrite H. Qed.

Lemma setattr_other assign a b s :
  a ≠ b -> polls (setattr a assign s).2 !! b = polls s !! b.
Proof.
  intros Hne. unfold setattr. destruct (polls s !! a); cbn; [|reflexivity].
  now apply lookup_insert_ne.
Qed.

Lemma call_run {A} (method : M Poll A) poll p s :
  polls s !! poll = Some p ->
  call poll method s =
  ((method p).1, set_polls (<[poll := (method p).2]> (polls s)) s).
Proof. intros H. unfold call. rewrite H. now destruct (method p). Qed.

Lemma call_deleted {A} (method : M Poll A) poll s :
  polls s !! poll = None -> call poll method s = (Raised ObjectDeletedError, s).
Proof. intros H. unfold call. now rewrite H. Qed.

Lemma in_session_run {A} (m : M Session A) w :
  in_session m w = ((m (session w)).1, {| session := (m (session w)).2; events := events w |}).
Proof. unfold in_session. now destruct (m (session w)). Qed.

Lemma emitted_app w s l :
  emitted w {| session := s; events := events w ++ l |} = l.
Proof. unfold emitted. cbn. apply drop_app_length. Qed.

Lemma set_polls_set_polls m m' s : set_polls m (set_polls m' s) = set_polls m s.
Proof. reflexivity. Qed.

Lemma set_polls_id s : set_polls (polls s) s = s.
Proof. now destruct s. Qed.

Lemma set_closed_id b p : closed p = b -> set_closed b p = p.
Proof. intros <-. now destruct p. Qed.

Ltac run_session :=
  repeat (rewrite bind_run;
          rewrite ?in_session_run;
          first [ erewrite getattr_run by (cbn; rewrite ?lookup_insert_eq; eauto)
                | erewrite setattr_run by (cbn; rewrite ?lookup_insert_eq; eauto)
                | idtac ];
          unfold mret, M_ret; cbn).

(** *** [set_due_date] *)

Ltac timedelta_values :=
  unfold datetime.timedelta, datetime.max, datetime.microseconds_per_day,
    datetime.microseconds_per_hour in *.

Lemma in_range_spec d : datetime.in_range d = true <-> 0 <= d <= datetime.max.
Proof. unfold datetime.in_range, datetime.min. rewrite andb_true_iff. lia. Qed.

Lemma set_due_date_run now date p :
  set_due_date now date p = set_due_date_result now date p.
Proof.
  unfold set_due_date, set_due_date_result, due_date_minus, datetime_sub, raise, gets, modify,
    mbind, M_bind, mret, M_ret.
  generalize (datetime.timedelta 7 0) (datetime.timedelta 1 0) (datetime.timedelta 0 6).
  intros a b c. cbn.
  destruct (datetime.in_range (date - a)) eqn:Ea; cbn; [|reflexivity].
  destruct (now <? date - a); cbn; rewrite ?Ea; [reflexivity|].
  destruct (datetime.in_range (date - b)) eqn:Eb; cbn; [|reflexivity].
  destruct (now <? date - b); cbn; rewrite ?Eb; [reflexivity|].
  destruct (datetime.in_range (date - c)) eqn:Ec; cbn; [|reflexivity].
  destruct (now <? date - c); cbn; rewrite ?Ec; reflexivity.
Qed.

Lemma set_due_date_raises now date p :
  date < datetime.timedelta 7 0 ->
  set_due_date now date p =
    (Raised OverflowError, set_due_date_column (Some date) p).
Proof.
  intros Hd. rewrite set_due_date_run. unfold set_due_date_result. cbv zeta.
  destruct (datetime.in_range (date - datetime.timedelta 7 0)) eqn:E; [|reflexivity].
  apply in_range_spec in E. lia.
Qed.

Lemma set_due_date_returned now date p p' :
  set_due_date now date p = (Returned tt, p') -> notification_before_due p' = true.
Proof.
  rewrite set_due_date_run. unfold set_due_date_result. cbv zeta.
  repeat (match goal with |- context [if ?b then _ else _] => destruct b end);
    intros [= <-]; unfold notification_before_due; cbn;
    apply Z.leb_le; timedelta_values; lia.
Qed.

Lemma set_due_date_returns now date p :
  datetime.timedelta 7 0 <= date <= datetime.max ->
  exists p', set_due_date now date p = (Returned tt, p').
Proof.
  intros Hd.
  destruct (set_due_date_result now date p) as [[[]|e] p'] eqn:E.
  - exists p'. now rewrite set_due_date_run.
  - exfalso. revert E. unfold set_due_date_result. cbv zeta.
    rewrite !(proj2 (in_range_spec _)) by (timedelta_values; lia). cbn [negb].
    repeat (match goal with |- context [if ?b then _ else _] => destruct b end);
      discriminate.
Qed.

(** *** The callbacks

    Each callback in closed form, on a poll of the session ([_run]) and on
    a handle without a row ([_deleted]). *)

Lemma close_poll_run poll p w :
  polls (session w) !! poll = Some p ->
  close_poll poll w =
  (Returned tt,
   {| session := set_polls (<[poll := set_closed true p]> (polls (session w))) (session w);
      events := events w ++ [Commit; UpdatePollMessages poll;
                             QueryAnswer "callback.closed" (user p)] |}).
Proof.
  intros H. unfold close_poll, emit, modify. run_session.
  now rewrite <- !app_assoc.
Qed.

Lemma close_poll_deleted poll w :
  polls (session w) !! poll = None ->
  close_poll poll w = (Raised ObjectDeletedError, w).
Proof.
  intros H. unfold close_poll. rewrite bind_run, in_session_run.
  unfold setattr. rewrite H. cbn. now destruct w.
Qed.

Lemma reopen_poll_visible now poll p w :
  polls (session w) !! poll = Some p ->
  results_visible p = true ->
  reopen_poll now poll w =
  (Returned tt,
   {| session := set_polls (<[poll := reopened now p]> (polls (session w))) (session w);
      events := events w ++ [Commit; UpdatePollMessages poll] |}).
Proof.
  intros H Hv. unfold reopen_poll, emit, modify, reopened, mret, M_ret. run_session.
  rewrite Hv. cbn. run_session.
  destruct (due_date p) as [d|]; [destruct (d <=? now)|]; run_session;
    rewrite ?insert_insert_eq, <- ?app_assoc; reflexivity.
Qed.

Lemma reopen_poll_hidden now poll p w :
  polls (session w) !! poll = Some p ->
  results_visible p = false ->
  reopen_poll now poll w =
  (Returned tt,
   {| session := session w;
      events := events w ++ [QueryAnswer "callback.cannot_reopen" (user p)] |}).
Proof.
  intros H Hv. unfold reopen_poll, emit, modify. run_session.
  rewrite Hv. cbn. run_session. reflexivity.
Qed.

Lemma reopen_poll_deleted now poll w :
  polls (session w) !! poll = None ->
  reopen_poll now poll w = (Raised ObjectDeletedError, w).
Proof.
  intros H. unfold reopen_poll. rewrite bind_run, in_session_run.
  unfold getattr. rewrite H. cbn. now destruct w.
Qed.

Lemma delete_votes_run (l : list (Z * Vote)) w :
  for_each l (fun vote => in_session (session_delete_vote vote)) w =
  (Returned tt, {| session := without_votes l (session w); events := events w |}).
Proof.
  revert w. induction l as [|v l IH]; intros w.
  - cbn. unfold mret, M_ret, without_votes. destruct w as [s ev]. cbn.
    rewrite filter_all by (intros; apply not_elem_of_nil). now destruct s.
  - cbn [for_each]. rewrite bind_run, in_session_run. cbn. rewrite IH. cbn.
    unfold without_votes, set_votes. cbn.
    rewrite list_filter_filter.
    rewrite (list_filter_iff _ (fun r => r.1 ∉ (v :: l).*1)); [done|].
    intros r. cbn. rewrite not_elem_of_cons. tauto.
Qed.

Lemma reset_poll_run poll p w :
  polls (session w) !! poll = Some p ->
  reset_poll poll w =
  (Returned tt,
   {| session := without_votes (Poll_votes (session w) poll) (session w);
      events := events w ++ [Commit; UpdatePollMessages poll;
                             QueryAnswer "callback.votes_removed" (user p)] |}).
Proof.
  intros H. unfold reset_poll, emit, modify, gets.
  rewrite bind_run, in_session_run. cbn.
  rewrite bind_run, delete_votes_run. run_session.
  now rewrite <- !app_assoc.
Qed.

Lemma reset_poll_deleted poll w :
  polls (session w) !! poll = None ->
  reset_poll poll w =
  (Raised ObjectDeletedError,
   {| session := without_votes (Poll_votes (session w) poll) (session w);
      events := events w ++ [Commit; UpdatePollMessages poll] |}).
Proof.
  intros H. unfold reset_poll, emit, modify, gets.
  rewrite bind_run, in_session_run. cbn.
  rewrite bind_run, delete_votes_run. cbn.
  rewrite bind_run. cbn. rewrite bind_run. cbn.
  rewrite bind_run, in_session_run. unfold getattr. cbn. rewrite H. cbn.
  now rewrite <- !app_assoc.
Qed.

Lemma Poll_votes_without_votes s poll :
  Poll_votes (without_votes (Poll_votes s poll) s) poll = [].
Proof.
  unfold Poll_votes, without_votes. cbn.
  apply filter_none. intros r [Hid Hr]%list_elem_of_filter Hp.
  apply Hid. apply list_elem_of_fmap. exists r. split; [done|].
  apply list_elem_of_filter. done.
Qed.

Lemma Poll_votes_without_votes_ne s poll other :
  NoDup (votes s).*1 -> other ≠ poll ->
  Poll_votes (without_votes (Poll_votes s poll) s) other = Poll_votes s other.
Proof.
  intros Hnd Hne. unfold Poll_votes, without_votes. cbn.
  rewrite list_filter_filter. apply filter_ext_elem. intros r Hr.
  split; [tauto|]. intros Ho. split; [done|].
  intros (r' & E & [Hp Hr']%list_elem_of_filter)%list_elem_of_fmap.
  assert (r = r') by (eapply fst_inj_NoDup; eauto). congruence.
Qed.

(** *** [clone] *)

Lemma add_options_run poll (options : list (Z * PollOption)) s :
  for_each options (fun option =>
    session_add_option (PollOption_init poll (option_name option.2))) s =
  (Returned tt,
   {| polls := polls s; poll_id_seq := poll_id_seq s;
      poll_options :=
        poll_options s ++ rows_from (poll_option_id_seq s) (clone_options poll options);
      poll_option_id_seq := poll_option_id_seq s + Z.of_nat (length options);
      votes := votes s; references := references s;
      notifications := notifications s |}).
Proof.
  revert s. induction options as [|o l IH]; intros s.
  - cbn. unfold mret, M_ret. rewrite app_nil_r, Z.add_0_r. now destruct s.
  - cbn [for_each]. rewrite bind_run. cbn [session_add_option]. rewrite IH.
    cbn [polls poll_id_seq poll_options poll_option_id_seq votes references notifications
         clone_options map rows_from length].
    rewrite <- app_assoc. cbn [app].
    replace (poll_option_id_seq s + 1 + Z.of_nat (length l))
      with (poll_option_id_seq s + Z.of_nat (S (length l))) by lia.
    reflexivity.
Qed.

Lemma clone_run self p s :
  polls s !! self = Some p ->
  self ≠ poll_id_seq s ->
  clone self s = (Returned (poll_id_seq s), cloned self p s).
Proof.
  intros H Hne. assert (Hne' : poll_id_seq s ≠ self) by congruence.
  unfold clone, session_add_poll, gets.
  repeat (rewrite bind_run;
          first [ erewrite getattr_run
                    by (cbn [polls set_polls]; rewrite ?lookup_insert_ne by done; exact H)
                | erewrite setattr_run
                    by (cbn [polls set_polls]; apply lookup_insert_eq)
                | idtac ];
          cbn [polls set_polls poll_id_seq poll_options poll_option_id_seq votes
               references notifications];
          rewrite ?insert_insert_eq, ?set_polls_set_polls).
  change (Poll_options _ self) with (Poll_options s self).
  rewrite add_options_run. reflexivity.
Qed.

Lemma clone_deleted self s :
  polls s !! self = None -> clone self s = (Raised ObjectDeletedError, s).
Proof. intros H. unfold clone. rewrite bind_run. unfold getattr. now rewrite H. Qed.

Lemma clone_options_poll poll options o :
  o ∈ clone_options poll options -> option_poll o = poll.
Proof.
  unfold clone_options. intros (x & -> & _)%list_elem_of_fmap. reflexivity.
Qed.

Lemma clone_options_names poll options :
  map option_name (clone_options poll options) = map (fun r => option_name r.2) options.
Proof. unfold clone_options. rewrite map_map. reflexivity. Qed.

Lemma wf_self_ne s self p :
  wf_session s -> polls s !! self = Some p -> self ≠ poll_id_seq s.
Proof. intros Hwf H. apply (wf_poll_keys s Hwf) in H. lia. Qed.

Lemma Poll_options_elem s poll r :
  r ∈ Poll_options s poll <-> r ∈ poll_options s /\ option_poll r.2 = poll.
Proof.
  unfold Poll_options. rewrite order_by_id_elem, list_elem_of_filter. tauto.
Qed.

Lemma Poll_options_add_other o s poll :
  option_poll o ≠ poll ->
  Poll_options (session_add_option o s).2 poll = Poll_options s poll.
Proof.
  intros Hne. unfold Poll_options. cbn.
  rewrite filter_app, filter_cons_False, filter_nil, app_nil_r by (cbn; done).
  reflexivity.
Qed.

Lemma Poll_options_cloned_new self p s :
  wf_session s ->
  Poll_options (cloned self p s) (poll_id_seq s) =
  rows_from (poll_option_id_seq s)
    (clone_options (poll_id_seq s) (Poll_options s self)).
Proof.
  intros Hwf. unfold Poll_options at 1. cbn [poll_options cloned].
  rewrite filter_app, filter_none, filter_all, app_nil_l.
  - apply order_by_id_rows_from.
  - intros r Hr%rows_from_elem_snd. eapply clone_options_poll, Hr.
  - intros r Hr E.
    pose proof (wf_option_poll s Hwf) as Hfk.
    rewrite Forall_forall in Hfk. destruct (Hfk r Hr) as [q Hq].
    apply (wf_poll_keys s Hwf) in Hq. lia.
Qed.

Lemma Poll_options_cloned_other self p s poll :
  poll ≠ poll_id_seq s ->
  Poll_options (cloned self p s) poll = Poll_options s poll.
Proof.
  intros Hne. unfold Poll_options. cbn [poll_options cloned].
  rewrite filter_app, (filter_none _ (rows_from _ _)), app_nil_r; [done|].
  intros r Hr%rows_from_elem_snd E. apply Hne. rewrite <- E.
  eapply clone_options_poll, Hr.
Qed.

Lemma Poll_votes_cloned_new self p s :
  wf_session s -> Poll_votes (cloned self p s) (poll_id_seq s) = [].
Proof.
  intros Hwf. unfold Poll_votes. cbn [votes cloned].
  apply filter_none. intros r Hr E.
  pose proof (wf_vote_poll s Hwf) as Hfk.
  rewrite Forall_forall in Hfk. destruct (Hfk r Hr) as [q Hq].
  apply (wf_poll_keys s Hwf) in Hq. lia.
Qed.

Lemma Poll_references_cloned_new self p s :
  wf_session s -> Poll_references (cloned self p s) (poll_id_seq s) = [].
Proof.
  intros Hwf. unfold Poll_references. cbn [references cloned].
  apply filter_none. intros r Hr E.
  pose proof (wf_reference_poll s Hwf) as Hfk.
  rewrite Forall_forall in Hfk. destruct (Hfk r Hr) as [q Hq].
  apply (wf_poll_keys s Hwf) in Hq. lia.
Qed.

Lemma Poll_notifications_cloned_new self p s :
  wf_session s -> Poll_notifications (cloned self p s) (poll_id_seq s) = [].
Proof.
  intros Hwf. unfold Poll_notifications. cbn [notifications cloned].
  apply filter_none. intros r Hr E.
  pose proof (wf_notification_poll s Hwf) as Hfk.
  rewrite Forall_forall in Hfk. destruct (Hfk r Hr) as [q Hq].
  apply (wf_poll_keys s Hwf) in Hq. lia.
Qed.

(** *** The operations keep a session well formed *)

Lemma wf_session_set_poll s i p q :
  polls s !! i = Some p ->
  wf_session s -> wf_session (set_polls (<[i := q]> (polls s)) s).
Proof.
  intros Hi [Hk Hok Hop Hv Hr Hn].
  assert (Hsome : forall j, is_Some (polls s !! j) -> is_Some (<[i := q]> (polls s) !! j)).
  { intros j Hj. rewrite lookup_insert. case_decide; [eauto | exact Hj]. }
  split; cbn.
  - intros j x. rewrite lookup_insert. case_decide; [subst; eauto | apply Hk].
  - exact Hok.
  - eapply Forall_impl; [exact Hop|]. intros r. apply Hsome.
  - eapply Forall_impl; [exact Hv|]. intros r. apply Hsome.
  - eapply Forall_impl; [exact Hr|]. intros r. apply Hsome.
  - eapply Forall_impl; [exact Hn|]. intros r. apply Hsome.
Qed.

Lemma wf_session_close_poll poll w :
  wf_session (session w) -> wf_session (session (close_poll poll w).2).
Proof.
  intros Hwf. destruct (polls (session w) !! poll) as [p|] eqn:E.
  - rewrite (close_poll_run poll p w E). now apply (wf_session_set_poll _ _ p).
  - now rewrite (close_poll_deleted poll w E).
Qed.

Lemma wf_session_reopen_poll now poll w :
  wf_session (session w) -> wf_session (session (reopen_poll now poll w).2).
Proof.
  intros Hwf. destruct (polls (session w) !! poll) as [p|] eqn:E.
  - destruct (results_visible p) eqn:Ev.
    + rewrite (reopen_poll_visible now poll p w E Ev).
      now apply (wf_session_set_poll _ _ p).
    + now rewrite (reopen_poll_hidden now poll p w E Ev).
  - now rewrite (reopen_poll_deleted now poll w E).
Qed.

Lemma wf_session_without_votes l s :
  wf_session s -> wf_session (without_votes l s).
Proof.
  intros [Hk Hok Hop Hv Hr Hn]. split; cbn; try assumption.
  apply Forall_forall. intros r [_ Hr']%list_elem_of_filter.
  rewrite Forall_forall in Hv. now apply Hv.
Qed.

Lemma wf_session_reset_poll poll w :
  wf_session (session w) -> wf_session (session (reset_poll poll w).2).
Proof.
  intros Hwf. destruct (polls (session w) !! poll) as [p|] eqn:E.
  - rewrite (reset_poll_run poll p w E). now apply wf_session_without_votes.
  - rewrite (reset_poll_deleted poll w E). now apply wf_session_without_votes.
Qed.

Lemma wf_session_clone self s :
  wf_session s -> wf_session (clone self s).2.
Proof.
  intros Hwf. destruct (polls s !! self) as [p|] eqn:E;
    [|now rewrite (clone_deleted self s E)].
  rewrite (clone_run self p s E (wf_self_ne s self p Hwf E)). cbn [snd].
  destruct Hwf as [Hk Hok Hop Hv Hr Hn].
  assert (Hsome : forall j, is_Some (polls s !! j) ->
                            is_Some (<[poll_id_seq s := clone_of p]> (polls s) !! j)).
  { intros j Hj. rewrite lookup_insert. case_decide; [eauto | exact Hj]. }
  split; cbn [polls poll_id_seq poll_options poll_option_id_seq votes references
              notifications cloned].
  - intros j x. rewrite lookup_insert. case_decide; [lia|].
    intros Hj%Hk. lia.
  - apply Forall_app. split.
    + eapply Forall_impl; [exact Hok|]. intros r. cbn. lia.
    + apply Forall_forall. intros r Hr'%rows_from_fst_lt.
      unfold clone_options in Hr'. rewrite length_map in Hr'. exact Hr'.
  - apply Forall_app. split.
    + eapply Forall_impl; [exact Hop|]. intros r. apply Hsome.
    + apply Forall_forall. intros r Hr'%rows_from_elem_snd.
      rewrite (clone_options_poll _ _ _ Hr'), lookup_insert_eq. eauto.
  - eapply Forall_impl; [exact Hv|]. intros r. apply Hsome.
  - eapply Forall_impl; [exact Hr|]. intros r. apply Hsome.
  - eapply Forall_impl; [exact Hn|]. intros r. apply Hsome.
Qed.

Lemma example_session_wf p : wf_session (set_polls {[ 1 := p ]} example_session).
Proof.
  split; cbn.
  - intros i q [<- _]%lookup_singleton_Some. lia.
  - repeat constructor; cbn; lia.
  - repeat constructor; cbn; eexists; apply lookup_singleton_eq.
  - repeat constructor; cbn; eexists; apply lookup_singleton_eq.
  - repeat constructor; cbn; eexists; apply lookup_singleton_eq.
  - repeat constructor; cbn; eexists; apply lookup_singleton_eq.
Qed.

(** *** The operations keep the invariant of the notification *)

Lemma session_invariant_insert s i p :
  session_invariant s ->
  notification_before_due p = true ->
  session_invariant (set_polls (<[i := p]> (polls s)) s).
Proof.
  intros Hs Hp j q. cbn. rewrite lookup_insert.
  case_decide; [intros [= <-]; exact Hp | apply Hs].
Qed.

Lemma notification_before_due_reopened now p :
  notification_before_due p = true -> notification_before_due (reopened now p) = true.
Proof.
  unfold reopened. destruct (due_date p) as [d|] eqn:E; [destruct (d <=? now)|];
    intros Hp; try exact Hp; reflexivity.
Qed.

Lemma reopened_cleared_or_kept now p :
  due_date (reopened now p) = None /\ next_notification (reopened now p) = None \/
  due_date (reopened now p) = due_date p /\
  next_notification (reopened now p) = next_notification p.
Proof.
  unfold reopened. destruct (due_date p) as [d|] eqn:E; [destruct (d <=? now)|];
    cbn; rewrite ?E; auto.
Qed.

Lemma session_invariant_close_poll poll w :
  session_invariant (session w) -> session_invariant (session (close_poll poll w).2).
Proof.
  intros Hs. destruct (polls (session w) !! poll) as [p|] eqn:E.
  - rewrite (close_poll_run poll p w E). cbn [snd session].
    apply session_invariant_insert; [exact Hs|]. exact (Hs poll p E).
  - now rewrite (close_poll_deleted poll w E).
Qed.

Lemma session_invariant_reopen_poll now poll w :
  session_invariant (session w) ->
  session_invariant (session (reopen_poll now poll w).2).
Proof.
  intros Hs. destruct (polls (session w) !! poll) as [p|] eqn:E.
  - destruct (results_visible p) eqn:Ev.
    + rewrite (reopen_poll_visible now poll p w E Ev). cbn [snd session].
      apply session_invariant_insert; [exact Hs|].
      apply notification_before_due_reopened. exact (Hs poll p E).
    + now rewrite (reopen_poll_hidden now poll p w E Ev).
  - now rewrite (reopen_poll_deleted now poll w E).
Qed.

Lemma session_invariant_reset_poll poll w :
  session_invariant (session w) -> session_invariant (session (reset_poll poll w).2).
Proof.
  intros Hs. destruct (polls (session w) !! poll) as [p|] eqn:E.
  - now rewrite (reset_poll_run poll p w E).
  - now rewrite (reset_poll_deleted poll w E).
Qed.

Lemma session_invariant_clone self s :
  wf_session s -> session_invariant s -> session_invariant (clone self s).2.
Proof.
  intros Hwf Hs. destruct (polls s !! self) as [p|] eqn:E.
  - rewrite (clone_run self p s E (wf_self_ne s self p Hwf E)). cbn [snd].
    intros j q. cbn [polls cloned]. rewrite lookup_insert.
    case_decide; [intros [= <-]; reflexivity | apply Hs].
  - now rewrite (clone_deleted self s E).
Qed.

Lemma session_invariant_set_due_date now date poll s :
  session_invariant s ->
  (call poll (set_due_date now date) s).1 = Returned tt ->
  session_invariant (call poll (set_due_date now date) s).2.
Proof.
  intros Hs. destruct (polls s !! poll) as [p|] eqn:E.
  - rewrite (call_run _ poll p s E). cbn [fst snd]. intros Hr.
    apply session_invariant_insert; [exact Hs|].
    apply (set_due_date_returned now date p).
    destruct (set_due_date now date p) as [r p']. cbn in *. now subst.
  - rewrite (call_deleted _ poll s E). discriminate.
Qed.

Lemma example_session_invariant :
  session_invariant (set_polls {[ 1 := example_closed_poll ]} example_session).
Proof.
  intros i q Hq. cbn in Hq.
  apply lookup_singleton_Some in Hq as [_ <-]. reflexivity.
Qed.

(** ** The due-date scheduler *)

(** C1 (as amended).  For every due date D from 0001-01-08T00:00:00 on, so
    that D minus 7 days is a datetime, and every current time N,
    [set_due_date] returns, sets [due_date] to D and sets
    [next_notification] to D - 7 days if N < D - 7 days, else to D - 1 day if
    N < D - 1 day, else to D - 6 hours if N < D - 6 hours, else to D.  The
    value is one of the four, it is at most D, and the four cases on N are
    exhaustive and pairwise exclusive, N past D included. *)
Theorem set_due_date_next_notification (now date : Z) (p : Poll) :
  datetime.timedelta 7 0 <= date <= datetime.max ->
  let d7 := date - datetime.timedelta 7 0 in
  let d1 := date - datetime.timedelta 1 0 in
  let h6 := date - datetime.timedelta 0 6 in
  exists r,
    set_due_date now date p =
      (Returned tt,
       set_next_notification (Some r) (set_due_date_column (Some date) p)) /\
    r = (if now <? d7 then d7
         else if now <? d1 then d1
         else if now <? h6 then h6
         else date) /\
    (r = d7 \/ r = d1 \/ r = h6 \/ r = date) /\
    r <= date /\
    (now < d7 /\ r = d7 \/
     d7 <= now < d1 /\ r = d1 \/
     d1 <= now < h6 /\ r = h6 \/
     h6 <= now /\ r = date) /\
    ~ (now < d7 /\ d7 <= now < d1) /\
    ~ (now < d7 /\ d1 <= now < h6) /\
    ~ (now < d7 /\ h6 <= now) /\
    ~ (d7 <= now < d1 /\ d1 <= now < h6) /\
    ~ (d7 <= now < d1 /\ h6 <= now) /\
    ~ (d1 <= now < h6 /\ h6 <= now).
Proof.
  intros Hdate d7 d1 h6.
  assert (H7 : datetime.in_range d7 = true)
    by (apply in_range_spec; subst d7; timedelta_values; lia).
  assert (H1 : datetime.in_range d1 = true)
    by (apply in_range_spec; subst d1; timedelta_values; lia).
  assert (H6 : datetime.in_range h6 = true)
    by (apply in_range_spec; subst h6; timedelta_values; lia).
  assert (Hord : d7 < d1 /\ d1 < h6 /\ h6 < date)
    by (subst d7 d1 h6; timedelta_values; lia).
  exists (if now <? d7 then d7
          else if now <? d1 then d1
          else if now <? h6 then h6
          else date).
  split.
  - rewrite set_due_date_run. unfold set_due_date_result. cbv zeta.
    fold d7 d1 h6. rewrite H7, H1, H6. cbn [negb].
    destruct (now <? d7); [reflexivity|].
    destruct (now <? d1); [reflexivity|].
    destruct (now <? h6); reflexivity.
  - split; [reflexivity|].
    destruct (Z.ltb_spec now d7); [lia|].
    destruct (Z.ltb_spec now d1); [lia|].
    destruct (Z.ltb_spec now h6); lia.
Qed.

(** The example of the specification: due 2024-01-10T00:00, now
    2024-01-01T00:00, next notification 2024-01-03T00:00. *)
Lemma set_due_date_next_notification_witness :
  exists r,
    set_due_date 63839664000000000 63840441600000000 (Poll_init 1) =
      (Returned tt,
       set_next_notification (Some r)
         (set_due_date_column (Some 63840441600000000) (Poll_init 1))) /\
    r = 63839836800000000.
Proof.
  destruct (set_due_date_next_notification
              63839664000000000 63840441600000000 (Poll_init 1))
    as (r & Hrun & Hr & _).
  - timedelta_values. lia.
  - exists r. split; [exact Hrun|]. rewrite Hr. reflexivity.
Defined.

(** The other example of the specification: at 2024-01-09T20:00 the last
    six hours have begun, and the next notification is the due date. *)
Example set_due_date_last_hours :
  set_due_date 63840427200000000 63840441600000000 (Poll_init 1) =
    (Returned tt,
     set_next_notification (Some 63840441600000000)
       (set_due_date_column (Some 63840441600000000) (Poll_init 1))).
Proof. reflexivity. Qed.

(** C1, the claim as stated fails: for the due date 0001-01-04T00:00:00 and
    the current time 0001-01-03T00:00:00 the subtraction of 7 days raises
    OverflowError, and no next notification is set. *)
Lemma set_due_date_overflow :
  set_due_date 172800000000 259200000000 (Poll_init 1) =
    (Raised OverflowError, set_due_date_column (Some 259200000000) (Poll_init 1)) /\
  next_notification (set_due_date 172800000000 259200000000 (Poll_init 1)).2 = None.
Proof. split; reflexivity. Qed.

(** C8.  With the current time fixed, [set_due_date] called twice with the
    same date gives the outcome and the poll, so the same [due_date] and
    [next_notification], that one call gives. *)
Theorem set_due_date_idempotent (now date : Z) (p : Poll) :
  (set_due_date now date;; set_due_date now date) p = set_due_date now date p.
Proof.
  unfold mbind, M_bind. rewrite !set_due_date_run.
  unfold set_due_date_result. cbv zeta.
  repeat (match goal with |- context [if ?b then _ else _] => destruct b eqn:? end);
    cbv beta iota; rewrite ?set_due_date_run; unfold set_due_date_result; cbv zeta;
    repeat match goal with H : _ = _ |- _ => rewrite H end; reflexivity.
Qed.

(** ** Visibility of the results *)

(** C10.  [should_show_result] is true exactly when [results_visible] or
    [closed] is true; a closed poll shows its results whatever
    [results_visible] is. *)
Theorem should_show_result_iff (self : Poll) :
  (should_show_result self = true <->
   results_visible self = true \/ closed self = true) /\
  should_show_result (set_closed true self) = true /\
  should_show_result (set_closed true (set_results_visible false self)) = true.
Proof.
  unfold should_show_result. cbn.
  rewrite orb_true_iff, orb_true_r. auto.
Qed.

(** ** The life cycle *)

(** C9.  [close_poll] returns for every poll of the session, sets [closed]
    and changes no other column of the poll (with the former value of
    [closed] put back the poll is the former poll), no other poll and no
    other table; on a poll that is closed already it leaves the session as it
    is, and two calls leave the session that one call leaves. *)
Theorem close_poll_idempotent (poll : PollId) (p : Poll) (w : World) :
  polls (session w) !! poll = Some p ->
  let w1 := (close_poll poll w).2 in
  let w2 := ((close_poll poll;; close_poll poll) w).2 in
  (close_poll poll w).1 = Returned tt /\
  session w1 = set_polls (<[poll := set_closed true p]> (polls (session w))) (session w) /\
  polls (session w1) !! poll = Some (set_closed true p) /\
  closed (set_closed true p) = true /\
  set_closed (closed p) (set_closed true p) = p /\
  (closed p = true -> session w1 = session w) /\
  ((close_poll poll;; close_poll poll) w).1 = Returned tt /\
  session w2 = session w1.
Proof.
  intros H w1 w2. subst w1 w2.
  rewrite bind_run, (close_poll_run poll p w H). cbn.
  erewrite close_poll_run by (cbn; apply lookup_insert_eq). cbn.
  rewrite lookup_insert_eq, insert_insert_eq.
  repeat split.
  - now destruct p.
  - intros Hc. now rewrite (set_closed_id true p Hc), insert_id, set_polls_id.
Qed.

Lemma close_poll_idempotent_witness :
  (close_poll 1 example_world).1 = Returned tt /\
  session ((close_poll 1;; close_poll 1) example_world).2 =
  session (close_poll 1 example_world).2.
Proof.
  pose proof (close_poll_idempotent 1 example_poll example_world eq_refl) as H.
  cbv zeta in H. destruct H as (H1 & _ & _ & _ & _ & _ & _ & H2).
  split; [exact H1 | exact H2].
Defined.

(** C2.  On a poll whose results are hidden, [reopen_poll] answers the
    callback query with the text "callback.cannot_reopen" and does nothing
    else: the session is left as it was, so [closed], [due_date] and
    [next_notification] keep their values, and a closed poll stays closed.
    The answer tells the refusal from a reopening, which answers nothing and
    emits a commit and an update of the messages. *)
Theorem reopen_poll_hidden_results (now : Z) (poll : PollId) (p : Poll) (w : World) :
  polls (session w) !! poll = Some p ->
  results_visible p = false ->
  let w' := (reopen_poll now poll w).2 in
  (reopen_poll now poll w).1 = Returned tt /\
  emitted w w' = [QueryAnswer "callback.cannot_reopen" (user p)] /\
  session w' = session w /\
  polls (session w') !! poll = Some p /\
  (forall now0 poll0 q w0,
     polls (session w0) !! poll0 = Some q ->
     results_visible q = true ->
     emitted w0 (reopen_poll now0 poll0 w0).2 = [Commit; UpdatePollMessages poll0]).
Proof.
  intros H Hv w'. subst w'. rewrite (reopen_poll_hidden now poll p w H Hv). cbn.
  rewrite emitted_app. repeat split; [exact H|].
  intros now0 poll0 q w0 H0 Hq.
  rewrite (reopen_poll_visible now0 poll0 q w0 H0 Hq). cbn. apply emitted_app.
Qed.

Lemma reopen_poll_hidden_results_witness :
  let p := set_closed true (set_results_visible false example_poll) in
  let w := {| session := set_polls {[ 1 := p ]} example_session; events := [] |} in
  (reopen_poll 63839664000000000 1 w).1 = Returned tt /\
  emitted w (reopen_poll 63839664000000000 1 w).2 =
    [QueryAnswer "callback.cannot_reopen" 7] /\
  polls (session (reopen_poll 63839664000000000 1 w).2) !! 1 = Some p.
Proof.
  intros p w.
  pose proof (reopen_poll_hidden_results 63839664000000000 1 p w eq_refl eq_refl) as H.
  cbv zeta in H. destruct H as (H1 & H2 & _ & H3 & _).
  split; [exact H1 | split; [exact H2 | exact H3]].
Defined.

(** C3.  On a poll whose results are visible, [reopen_poll] returns and
    sets [closed] to false.  When [due_date] is not NULL and not after the
    current time (the test of the code is [due_date <= now]), [due_date] and
    [next_notification] are both set to NULL, and no new notification is
    computed; when [due_date] is NULL or after the current time, both keep
    their values. *)
Theorem reopen_poll_visible_results (now : Z) (poll : PollId) (p : Poll) (w : World) :
  polls (session w) !! poll = Some p ->
  results_visible p = true ->
  exists p',
    (reopen_poll now poll w).1 = Returned tt /\
    polls (session (reopen_poll now poll w).2) !! poll = Some p' /\
    closed p' = false /\
    (forall d, due_date p = Some d -> d <= now ->
       due_date p' = None /\ next_notification p' = None) /\
    (due_date p = None \/ (exists d, due_date p = Some d /\ now < d) ->
       due_date p' = due_date p /\ next_notification p' = next_notification p).
Proof.
  intros H Hv. exists (reopened now p).
  rewrite (reopen_poll_visible now poll p w H Hv). cbn.
  rewrite lookup_insert_eq. unfold reopened.
  split; [reflexivity|]. split; [reflexivity|].
  destruct (due_date p) as [d|] eqn:Ed.
  - destruct (Z.leb_spec d now); cbn; (split; [reflexivity|]); split.
    + intros d' [= <-] _. done.
    + intros [[=]|(d' & [= <-] & Hlt)]. lia.
    + intros d' [= <-] Hle. lia.
    + intros _. now rewrite Ed.
  - cbn. split; [reflexivity|]. split.
    + intros d [=].
    + intros _. now rewrite Ed.
Qed.

Lemma reopen_poll_visible_results_witness :
  let p := set_next_notification (Some 63839836800000000)
             (set_due_date_column (Some 63840441600000000)
                (set_closed true example_poll)) in
  let w := {| session := set_polls {[ 1 := p ]} example_session; events := [] |} in
  exists p',
    polls (session (reopen_poll 63840441600000001 1 w).2) !! 1 = Some p' /\
    closed p' = false /\ due_date p' = None /\ next_notification p' = None.
Proof.
  intros p w.
  destruct (reopen_poll_visible_results 63840441600000001 1 p w eq_refl eq_refl)
    as (p' & _ & Hp' & Hc & Hpast & _).
  exists p'. split; [exact Hp'|]. split; [exact Hc|].
  apply (Hpast 63840441600000000); [reflexivity | lia].
Defined.

(** C7.  [reset_poll] returns for every poll of the session and deletes
    the votes of the poll, all of them.  It deletes nothing but votes and
    writes nothing: the polls (so the configuration and [closed] of this
    one), the options and their number, the references and the
    notifications are as before; and, primary keys being unique, the votes
    of every other poll are as before. *)
Theorem reset_poll_deletes_votes (poll : PollId) (p : Poll) (w : World) :
  polls (session w) !! poll = Some p ->
  let s := session w in
  let s' := session (reset_poll poll w).2 in
  (reset_poll poll w).1 = Returned tt /\
  Poll_votes s' poll = [] /\
  length (Poll_votes s' poll) = 0%nat /\
  polls s' = polls s /\
  polls s' !! poll = Some p /\
  poll_options s' = poll_options s /\
  Poll_options s' poll = Poll_options s poll /\
  length (Poll_options s' poll) = length (Poll_options s poll) /\
  references s' = references s /\
  notifications s' = notifications s /\
  (forall r, r ∈ votes s' -> r ∈ votes s) /\
  (NoDup (votes s).*1 ->
   forall other, other ≠ poll -> Poll_votes s' other = Poll_votes s other).
Proof.
  intros H s s'. subst s s'. rewrite (reset_poll_run poll p w H).
  cbn [fst snd session]. rewrite Poll_votes_without_votes.
  repeat split; try done.
  - intros r [_ Hr]%list_elem_of_filter. exact Hr.
  - intros Hnd other Hne. now apply Poll_votes_without_votes_ne.
Qed.

Lemma reset_poll_deletes_votes_witness :
  (reset_poll 1 example_world).1 = Returned tt /\
  Poll_votes (session example_world) 1 =
    [(1, {| vote_poll := 1; vote_option := 2; vote_user := 7 |})] /\
  Poll_votes (session (reset_poll 1 example_world).2) 1 = [] /\
  polls (session (reset_poll 1 example_world).2) !! 1 = Some example_poll.
Proof.
  pose proof (reset_poll_deletes_votes 1 example_poll example_world eq_refl) as H.
  cbv zeta in H. destruct H as (H1 & H2 & _ & _ & H3 & _).
  split; [exact H1 | split; [reflexivity | split; [exact H2 | exact H3]]].
Defined.

(** ** Cloning *)

(** C4.  [clone] returns the handle of a new poll that starts a life of
    its own: [created] is true, [closed] is false, [due_date] and
    [next_notification] are NULL, [expected_input] is NULL and
    [in_settings] is false, whatever the source has in these columns; and
    the new poll has no vote, no notification and no reference. *)
Theorem clone_fresh_lifecycle (self : PollId) (p : Poll) (s : Session) :
  wf_session s ->
  polls s !! self = Some p ->
  let new := poll_id_seq s in
  let s' := (clone self s).2 in
  (clone self s).1 = Returned new /\
  polls s !! new = None /\
  exists c,
    polls s' !! new = Some c /\
    created c = true /\
    closed c = false /\
    due_date c = None /\
    next_notification c = None /\
    expected_input c = None /\
    in_settings c = false /\
    Poll_votes s' new = [] /\
    Poll_notifications s' new = [] /\
    Poll_references s' new = [].
Proof.
  intros Hwf H new s'. subst new s'.
  rewrite (clone_run self p s H (wf_self_ne s self p Hwf H)). cbn [fst snd].
  split; [reflexivity|]. split.
  - destruct (polls s !! poll_id_seq s) as [q|] eqn:E; [|reflexivity].
    apply (wf_poll_keys s Hwf) in E. lia.
  - exists (clone_of p). cbn [polls cloned]. rewrite lookup_insert_eq.
    rewrite Poll_votes_cloned_new, Poll_notifications_cloned_new,
      Poll_references_cloned_new by assumption.
    repeat split.
Qed.

Lemma clone_fresh_lifecycle_witness :
  let s := set_polls {[ 1 := example_closed_poll ]} example_session in
  (clone 1 s).1 = Returned 2 /\
  Poll_votes s 1 <> [] /\
  exists c,
    polls (clone 1 s).2 !! 2 = Some c /\
    created c = true /\ closed c = false /\
    due_date c = None /\ next_notification c = None /\
    Poll_votes (clone 1 s).2 2 = [].
Proof.
  intros s.
  destruct (clone_fresh_lifecycle 1 example_closed_poll s
              (example_session_wf example_closed_poll) eq_refl)
    as (H1 & _ & c & Hc & Hcr & Hcl & Hd & Hn & _ & _ & Hv & _).
  split; [exact H1|]. split; [discriminate|].
  exists c. repeat split; assumption.
Defined.

(** C5.  [clone] copies the columns [name], [description], [poll_type],
    [anonymous], [number_of_votes], [allow_new_options], [option_sorting],
    [user_sorting], [results_visible] and [show_percentage], and no other:
    the rest of the new poll is what a new poll of the same user has, with
    [created] set.  The options of the new poll are new rows under it with
    the names of the options of the source, in their order.  The source, its
    options and every other row are as before; the new poll and its options
    share no row with the source, and assigning a column or adding an option
    on one side leaves the other side as it is. *)
Theorem clone_copies_configuration (self : PollId) (p : Poll) (s : Session) :
  wf_session s ->
  polls s !! self = Some p ->
  let new := poll_id_seq s in
  let s' := (clone self s).2 in
  (clone self s).1 = Returned new /\
  new <> self /\
  polls s' !! new =
    Some {| user := user p;
            name := name p;
            description := description p;
            locale := locale (Poll_init (user p));
            poll_type := poll_type p;
            anonymous := anonymous p;
            number_of_votes := number_of_votes p;
            allow_new_options := allow_new_options p;
            option_sorting := option_sorting p;
            user_sorting := user_sorting p;
            results_visible := results_visible p;
            show_percentage := show_percentage p;
            european_date_format := european_date_format (Poll_init (user p));
            created := true;
            closed := closed (Poll_init (user p));
            due_date := due_date (Poll_init (user p));
            next_notification := next_notification (Poll_init (user p));
            expected_input := expected_input (Poll_init (user p));
            in_settings := in_settings (Poll_init (user p)) |} /\
  map (fun r => option_name r.2) (Poll_options s' new) =
    map (fun r => option_name r.2) (Poll_options s self) /\
  Forall (fun r => option_poll r.2 = new) (Poll_options s' new) /\
  polls s' !! self = Some p /\
  (forall other, other <> new -> polls s' !! other = polls s !! other) /\
  (forall other, other <> new -> Poll_options s' other = Poll_options s other) /\
  votes s' = votes s /\
  references s' = references s /\
  notifications s' = notifications s /\
  (forall r r', r ∈ Poll_options s' new -> r' ∈ Poll_options s' self ->
     r.1 <> r'.1) /\
  (forall assign, polls (setattr self assign s').2 !! new = polls s' !! new) /\
  (forall n, Poll_options (session_add_option (PollOption_init self n) s').2 new =
             Poll_options s' new) /\
  (forall assign, polls (setattr new assign s').2 !! self = polls s' !! self) /\
  (forall n, Poll_options (session_add_option (PollOption_init new n) s').2 self =
             Poll_options s' self).
Proof.
  intros Hwf H new s'. subst new s'.
  pose proof (wf_self_ne s self p Hwf H) as Hne.
  assert (Hne' : poll_id_seq s <> self) by congruence.
  rewrite (clone_run self p s H Hne). cbn [fst snd].
  rewrite (Poll_options_cloned_new self p s Hwf).
  repeat split.
  - exact Hne'.
  - cbn [polls cloned]. now rewrite lookup_insert_eq.
  - rewrite rows_from_map_snd. apply clone_options_names.
  - apply Forall_forall. intros r Hr%rows_from_elem_snd.
    eapply clone_options_poll, Hr.
  - cbn [polls cloned]. now rewrite lookup_insert_ne.
  - intros other Ho. cbn [polls cloned]. now rewrite lookup_insert_ne.
  - intros other Ho. now apply Poll_options_cloned_other.
  - intros r r' Hr%rows_from_fst_ge Hr' E.
    rewrite Poll_options_cloned_other in Hr' by exact Hne.
    apply Poll_options_elem in Hr' as [Hr' _].
    pose proof (wf_option_keys s Hwf) as Hk. rewrite Forall_forall in Hk.
    apply Hk in Hr'. lia.
  - intros assign. now apply setattr_other.
  - intros n. rewrite <- (Poll_options_cloned_new self p s Hwf).
    now apply Poll_options_add_other.
  - intros assign. now apply setattr_other.
  - intros n. now apply Poll_options_add_other.
Qed.

Lemma clone_copies_configuration_witness :
  let s := set_polls {[ 1 := example_closed_poll ]} example_session in
  (clone 1 s).1 = Returned 2 /\
  map (fun r => option_name r.2) (Poll_options (clone 1 s).2 2) =
    ["Pizza"; "Sushi"]%string /\
  polls (clone 1 s).2 !! 1 = Some example_closed_poll.
Proof.
  intros s.
  pose proof (clone_copies_configuration 1 example_closed_poll s
                (example_session_wf example_closed_poll) eq_refl) as H.
  cbv zeta in H. destruct H as (H1 & _ & _ & H2 & _ & H3 & _).
  split; [exact H1|]. split; [etransitivity; [exact H2 | reflexivity] | exact H3].
Defined.

(** ** The invariant of the notification *)

(** C6 (as amended).  In a session where every poll has
    [next_notification], when it is not NULL, at most [due_date], that holds
    again after each operation: after [set_due_date] whenever it returns
    (each branch assigns a value that is at most [due_date]; it returns for
    every due date from 0001-01-08T00:00:00 on), after [reopen_poll] (which
    sets both columns to NULL or leaves both as they are), after
    [close_poll], [reset_poll] and [clone] (whose new poll has both NULL). *)
Theorem notification_before_due_invariant
    (now date : Z) (poll : PollId) (w : World) :
  wf_session (session w) ->
  session_invariant (session w) ->
  (forall p p', set_due_date now date p = (Returned tt, p') ->
     notification_before_due p' = true) /\
  (forall p, datetime.timedelta 7 0 <= date <= datetime.max ->
     exists p', set_due_date now date p = (Returned tt, p') /\
                notification_before_due p' = true) /\
  ((call poll (set_due_date now date) (session w)).1 = Returned tt ->
   session_invariant (call poll (set_due_date now date) (session w)).2) /\
  session_invariant (session (reopen_poll now poll w).2) /\
  (forall p, polls (session w) !! poll = Some p ->
     exists p',
       polls (session (reopen_poll now poll w).2) !! poll = Some p' /\
       (due_date p' = None /\ next_notification p' = None \/
        due_date p' = due_date p /\ next_notification p' = next_notification p)) /\
  session_invariant (session (close_poll poll w).2) /\
  session_invariant (session (reset_poll poll w).2) /\
  session_invariant (clone poll (session w)).2 /\
  (forall p, polls (session w) !! poll = Some p ->
     exists c,
       polls (clone poll (session w)).2 !! poll_id_seq (session w) = Some c /\
       due_date c = None /\ next_notification c = None).
Proof.
  intros Hwf Hs. repeat split.
  - apply set_due_date_returned.
  - intros p Hd. destruct (set_due_date_returns now date p Hd) as [p' Hp'].
    exists p'. split; [exact Hp'|]. exact (set_due_date_returned _ _ _ _ Hp').
  - now apply session_invariant_set_due_date.
  - now apply session_invariant_reopen_poll.
  - intros p Hp. destruct (results_visible p) eqn:Ev.
    + exists (reopened now p).
      rewrite (reopen_poll_visible now poll p w Hp Ev). cbn [snd session polls set_polls].
      rewrite lookup_insert_eq. split; [reflexivity|].
      apply reopened_cleared_or_kept.
    + exists p. rewrite (reopen_poll_hidden now poll p w Hp Ev). cbn [snd session].
      split; [exact Hp|]. right. split; reflexivity.
  - now apply session_invariant_close_poll.
  - now apply session_invariant_reset_poll.
  - now apply session_invariant_clone.
  - intros p Hp. exists (clone_of p).
    rewrite (clone_run poll p _ Hp (wf_self_ne _ poll p Hwf Hp)). cbn [snd polls cloned].
    rewrite lookup_insert_eq. repeat split.
Qed.

Lemma notification_before_due_invariant_witness :
  let w := {| session := set_polls {[ 1 := example_closed_poll ]} example_session;
              events := [] |} in
  session_invariant (session (reopen_poll 63840441600000001 1 w).2) /\
  session_invariant (session (close_poll 1 w).2) /\
  session_invariant (session (reset_poll 1 w).2) /\
  session_invariant (clone 1 (session w)).2.
Proof.
  intros w.
  pose proof (notification_before_due_invariant
                63840441600000001 63840441600000000 1 w
                (example_session_wf example_closed_poll)
                example_session_invariant) as H.
  destruct H as (_ & _ & _ & H1 & _ & H2 & H3 & H4 & _).
  split; [exact H1|]. split; [exact H2|]. split; [exact H3 | exact H4].
Defined.

(** C6, the claim as stated fails: on a poll that is due 2024-01-10T00:00
    with the next notification 2024-01-03T00:00, [set_due_date] with the date
    0001-01-04T00:00:00 assigns [due_date] and then raises OverflowError, and
    leaves the next notification after the due date. *)
Lemma set_due_date_raised_breaks_invariant :
  notification_before_due example_closed_poll = true /\
  set_due_date 63839664000000000 259200000000 example_closed_poll =
    (Raised OverflowError,
     set_due_date_column (Some 259200000000) example_closed_poll) /\
  notification_before_due
    (set_due_date 63839664000000000 259200000000 example_closed_poll).2 = false.
Proof. repeat split. Qed.

(** * Further properties of the code *)

(** ** More on the scheduler *)

Lemma set_due_date_returned_tier now date p p' :
  set_due_date now date p = (Returned tt, p') ->
  datetime.timedelta 7 0 <= date /\
  p' = set_next_notification (Some (notification_tier now date))
         (set_due_date_column (Some date) p).
Proof.
  rewrite set_due_date_run. unfold set_due_date_result, notification_tier. cbv zeta.
  destruct (datetime.in_range (date - datetime.timedelta 7 0)) eqn:E7; cbn [negb];
    [|discriminate].
  apply in_range_spec in E7.
  repeat (match goal with |- context [if ?b then _ else _] => destruct b end);
    intros [= <-]; (split; [lia | reflexivity]).
Qed.

Lemma notification_tier_cases now date :
  let r := notification_tier now date in
  now < date - datetime.timedelta 7 0 /\ r = date - datetime.timedelta 7 0 \/
  date - datetime.timedelta 7 0 <= now < date - datetime.timedelta 1 0 /\
    r = date - datetime.timedelta 1 0 \/
  date - datetime.timedelta 1 0 <= now < date - datetime.timedelta 0 6 /\
    r = date - datetime.timedelta 0 6 \/
  date - datetime.timedelta 0 6 <= now /\ r = date.
Proof.
  unfold notification_tier. cbv zeta.
  destruct (Z.ltb_spec now (date - datetime.timedelta 7 0)); [lia|].
  destruct (Z.ltb_spec now (date - datetime.timedelta 1 0)); [timedelta_values; lia|].
  destruct (Z.ltb_spec now (date - datetime.timedelta 0 6)); timedelta_values; lia.
Qed.

(** X1.  On a datetime, [set_due_date] raises exactly when the date is in
    the first seven days of year 1, whatever the current time is; it then
    raises OverflowError, with [due_date] assigned and nothing else
    changed. *)
Theorem set_due_date_raises_iff (now date : Z) (p : Poll) :
  datetime.min <= date <= datetime.max ->
  ((set_due_date now date p).1 = Returned tt <->
   datetime.timedelta 7 0 <= date) /\
  ((set_due_date now date p).1 = Raised OverflowError <->
   date < datetime.timedelta 7 0) /\
  (date < datetime.timedelta 7 0 ->
   (set_due_date now date p).2 = set_due_date_column (Some date) p).
Proof.
  intros Hd. unfold datetime.min in Hd.
  destruct (Z.lt_ge_cases date (datetime.timedelta 7 0)) as [Hlt|Hge].
  - rewrite (set_due_date_raises now date p Hlt). cbn [fst snd].
    repeat split; try done; try lia.
  - destruct (set_due_date_returns now date p) as [p' Hp']; [lia|].
    rewrite Hp'. cbn [fst snd]. repeat split; try done; lia.
Qed.

Lemma set_due_date_raises_iff_witness :
  (set_due_date 63839664000000000 0 (Poll_init 1)).1 = Raised OverflowError /\
  (set_due_date 63839664000000000 604800000000 (Poll_init 1)).1 = Returned tt.
Proof.
  split.
  - apply (set_due_date_raises_iff 63839664000000000 0 (Poll_init 1)).
    + unfold datetime.min. timedelta_values. lia.
    + timedelta_values. lia.
  - apply (set_due_date_raises_iff 63839664000000000 604800000000 (Poll_init 1)).
    + unfold datetime.min. timedelta_values. lia.
    + timedelta_values. lia.
Defined.

(** X2.  When [set_due_date] returns, the next notification is after the
    current time, or it is the due date itself; and it is the due date only
    when no more than six hours are left, the due date past included. *)
Theorem next_notification_in_future (now date : Z) (p p' : Poll) :
  set_due_date now date p = (Returned tt, p') ->
  exists r,
    next_notification p' = Some r /\
    due_date p' = Some date /\
    (now < r \/ r = date) /\
    (r = date <-> date - datetime.timedelta 0 6 <= now).
Proof.
  intros [_ ->]%set_due_date_returned_tier.
  exists (notification_tier now date). cbn.
  pose proof (notification_tier_cases now date) as H. cbv zeta in H.
  repeat split; try (timedelta_values; lia).
Qed.

Lemma next_notification_in_future_witness :
  exists r,
    next_notification
      (set_due_date 63839664000000000 63840441600000000 (Poll_init 1)).2 = Some r /\
    (63839664000000000 < r \/ r = 63840441600000000).
Proof.
  destruct (next_notification_in_future 63839664000000000 63840441600000000
              (Poll_init 1) _ eq_refl) as (r & Hr & _ & Hf & _).
  exists r. split; [exact Hr | exact Hf].
Defined.

(** X3.  For one due date the next notification never moves back as the
    current time advances. *)
Theorem next_notification_monotone (now1 now2 date : Z) (p1 p2 q1 q2 : Poll) :
  now1 <= now2 ->
  set_due_date now1 date p1 = (Returned tt, q1) ->
  set_due_date now2 date p2 = (Returned tt, q2) ->
  exists r1 r2,
    next_notification q1 = Some r1 /\ next_notification q2 = Some r2 /\ r1 <= r2.
Proof.
  intros Hle [_ ->]%set_due_date_returned_tier [_ ->]%set_due_date_returned_tier.
  exists (notification_tier now1 date), (notification_tier now2 date). cbn.
  pose proof (notification_tier_cases now1 date) as H1.
  pose proof (notification_tier_cases now2 date) as H2. cbv zeta in H1, H2.
  repeat split; timedelta_values; lia.
Qed.

Lemma next_notification_monotone_witness :
  exists r1 r2,
    next_notification
      (set_due_date 63839664000000000 63840441600000000 (Poll_init 1)).2 = Some r1 /\
    next_notification
      (set_due_date 63840427200000000 63840441600000000 (Poll_init 1)).2 = Some r2 /\
    r1 <= r2.
Proof.
  apply (next_notification_monotone 63839664000000000 63840427200000000
           63840441600000000 (Poll_init 1) (Poll_init 1) _ _);
    [lia | reflexivity | reflexivity].
Defined.

(** X4.  Re-arming: when the next notification is before the due date,
    [set_due_date] called again at the time of that notification, with the
    same due date, returns and sets a later one, which is again at most the
    due date. *)
Theorem set_due_date_rearm (now date r : Z) (p q : Poll) :
  date <= datetime.max ->
  set_due_date now date p = (Returned tt, q) ->
  next_notification q = Some r ->
  r < date ->
  exists q' r',
    set_due_date r date q = (Returned tt, q') /\
    next_notification q' = Some r' /\
    r < r' <= date.
Proof.
  intros Hmax Hq Hr Hlt.
  apply set_due_date_returned_tier in Hq as [H7 ->]. cbn in Hr.
  injection Hr as <-.
  destruct (set_due_date_returns (notification_tier now date) date
              (set_next_notification (Some (notification_tier now date))
                 (set_due_date_column (Some date) p))) as [q' Hq']; [lia|].
  exists q', (notification_tier (notification_tier now date) date).
  split; [exact Hq'|].
  apply set_due_date_returned_tier in Hq' as [_ ->]. cbn.
  split; [reflexivity|].
  pose proof (notification_tier_cases now date) as H1.
  pose proof (notification_tier_cases (notification_tier now date) date) as H2.
  cbv zeta in H1, H2. timedelta_values. lia.
Qed.

Lemma set_due_date_rearm_witness :
  exists q' r',
    set_due_date 63839836800000000 63840441600000000
      (set_due_date 63839664000000000 63840441600000000 (Poll_init 1)).2 =
      (Returned tt, q') /\
    next_notification q' = Some r' /\
    63839836800000000 < r' <= 63840441600000000.
Proof.
  apply (set_due_date_rearm 63839664000000000 63840441600000000
           63839836800000000 (Poll_init 1) _).
  - timedelta_values. lia.
  - reflexivity.
  - reflexivity.
  - lia.
Defined.

(** X5.  The last [set_due_date] wins: after two calls that return, with
    any current times, the poll is the poll that the second call alone
    leaves. *)
Theorem set_due_date_overwrites (now1 now2 date1 date2 : Z) (p : Poll) :
  datetime.timedelta 7 0 <= date1 <= datetime.max ->
  datetime.timedelta 7 0 <= date2 <= datetime.max ->
  (set_due_date now1 date1;; set_due_date now2 date2) p =
  set_due_date now2 date2 p.
Proof.
  intros H1 H2. rewrite bind_run.
  destruct (set_due_date_returns now1 date1 p H1) as [q Hq]. rewrite Hq.
  apply set_due_date_returned_tier in Hq as [_ ->].
  destruct (set_due_date_returns now2 date2 p H2) as [q2 Hq2].
  destruct (set_due_date_returns now2 date2
              (set_next_notification (Some (notification_tier now1 date1))
                 (set_due_date_column (Some date1) p)) H2) as [q1 Hq1].
  rewrite Hq1, Hq2.
  apply set_due_date_returned_tier in Hq1 as [_ ->].
  apply set_due_date_returned_tier in Hq2 as [_ ->].
  reflexivity.
Qed.

Lemma set_due_date_overwrites_witness :
  (set_due_date 63839664000000000 63840355200000000;;
   set_due_date 63839664000000000 63840441600000000) (Poll_init 1) =
  set_due_date 63839664000000000 63840441600000000 (Poll_init 1).
Proof.
  apply (set_due_date_overwrites 63839664000000000 63839664000000000
           63840355200000000 63840441600000000 (Poll_init 1));
    timedelta_values; lia.
Defined.

(** ** More on the life cycle *)

Lemma reopened_idempotent now p : reopened now (reopened now p) = reopened now p.
Proof.
  unfold reopened. destruct (due_date p) as [d|] eqn:E; [destruct (d <=? now) eqn:El|];
    cbn; rewrite ?E, ?El; reflexivity.
Qed.

Lemma results_visible_reopened now p :
  results_visible (reopened now p) = results_visible p.
Proof.
  unfold reopened. destruct (due_date p) as [d|]; [destruct (d <=? now)|]; reflexivity.
Qed.

Lemma without_votes_nil s : without_votes [] s = s.
Proof.
  unfold without_votes. cbn.
  rewrite filter_all by (intros; apply not_elem_of_nil). now destruct s.
Qed.

(** X6.  [reopen_poll] is idempotent at a fixed current time: on a poll of
    the session, with visible or with hidden results, two calls leave the
    session that one call leaves. *)
Theorem reopen_poll_idempotent (now : Z) (poll : PollId) (p : Poll) (w : World) :
  polls (session w) !! poll = Some p ->
  ((reopen_poll now poll;; reopen_poll now poll) w).1 = Returned tt /\
  session ((reopen_poll now poll;; reopen_poll now poll) w).2 =
  session (reopen_poll now poll w).2.
Proof.
  intros H. rewrite bind_run. destruct (results_visible p) eqn:Ev.
  - rewrite (reopen_poll_visible now poll p w H Ev).
    erewrite reopen_poll_visible
      by (cbn; rewrite ?lookup_insert_eq, ?results_visible_reopened; eauto).
    cbn. now rewrite insert_insert_eq, reopened_idempotent.
  - rewrite (reopen_poll_hidden now poll p w H Ev).
    erewrite reopen_poll_hidden by (cbn; eauto). done.
Qed.

Lemma reopen_poll_idempotent_witness :
  let w := {| session := set_polls {[ 1 := example_closed_poll ]} example_session;
              events := [] |} in
  session ((reopen_poll 63840441600000001 1;; reopen_poll 63840441600000001 1) w).2 =
  session (reopen_poll 63840441600000001 1 w).2.
Proof.
  intros w.
  apply (reopen_poll_idempotent 63840441600000001 1 example_closed_poll w eq_refl).
Defined.



(** X8.  Closing a poll with hidden results is final: after [close_poll],
    [reopen_poll] at any time answers that the poll cannot be reopened and
    leaves it closed, with its results shown. *)
Theorem close_hidden_results_final (now : Z) (poll : PollId) (p : Poll) (w : World) :
  polls (session w) !! poll = Some p ->
  results_visible p = false ->
  let w1 := (close_poll poll w).2 in
  let w2 := ((close_poll poll;; reopen_poll now poll) w).2 in
  ((close_poll poll;; reopen_poll now poll) w).1 = Returned tt /\
  session w2 = session w1 /\
  emitted w1 w2 = [QueryAnswer "callback.cannot_reopen" (user p)] /\
  exists p',
    polls (session w2) !! poll = Some p' /\
    closed p' = true /\
    should_show_result p' = true.
Proof.
  intros H Hv w1 w2. subst w1 w2.
  rewrite bind_run, (close_poll_run poll p w H).
  erewrite reopen_poll_hidden by (cbn; rewrite ?lookup_insert_eq; eauto).
  cbn [fst snd session]. rewrite emitted_app.
  repeat split. exists (set_closed true p). cbn.
  rewrite lookup_insert_eq. repeat split.
  unfold should_show_result. cbn. apply orb_true_r.
Qed.

Lemma close_hidden_results_final_witness :
  let p := set_results_visible false example_poll in
  let w := {| session := set_polls {[ 1 := p ]} example_session; events := [] |} in
  exists p',
    polls (session ((close_poll 1;; reopen_poll 63839664000000000 1) w).2) !! 1 =
      Some p' /\
    closed p' = true /\ should_show_result p' = true.
Proof.
  intros p w.
  pose proof (close_hidden_results_final 63839664000000000 1 p w eq_refl eq_refl) as H.
  cbv zeta in H. destruct H as (_ & _ & _ & H). exact H.
Defined.

(** X9.  [reset_poll] is idempotent: a second call finds no vote of the
    poll and leaves the session that the first call leaves; and on a poll
    without votes [reset_poll] leaves the session as it is. *)
Theorem reset_poll_idempotent (poll : PollId) (p : Poll) (w : World) :
  polls (session w) !! poll = Some p ->
  ((reset_poll poll;; reset_poll poll) w).1 = Returned tt /\
  session ((reset_poll poll;; reset_poll poll) w).2 = session (reset_poll poll w).2 /\
  (Poll_votes (session w) poll = [] -> session (reset_poll poll w).2 = session w).
Proof.
  intros H. rewrite bind_run, (reset_poll_run poll p w H).
  erewrite reset_poll_run by (cbn; eauto).
  cbn [fst snd session]. rewrite Poll_votes_without_votes, without_votes_nil.
  repeat split. intros ->. apply without_votes_nil.
Qed.

Lemma reset_poll_idempotent_witness :
  session ((reset_poll 1;; reset_poll 1) example_world).2 =
  session (reset_poll 1 example_world).2.
Proof.
  apply (reset_poll_idempotent 1 example_poll example_world eq_refl).
Defined.

(** X10.  The callbacks and [clone] keep a session well formed: keys stay
    below their sequences, and every option, vote, reference and
    notification still belongs to a poll of the session. *)
Theorem wf_session_preserved (now : Z) (poll : PollId) (w : World) :
  wf_session (session w) ->
  wf_session (session (close_poll poll w).2) /\
  wf_session (session (reopen_poll now poll w).2) /\
  wf_session (session (reset_poll poll w).2) /\
  wf_session (clone poll (session w)).2.
Proof.
  intros Hwf. split; [|split; [|split]].
  - now apply wf_session_close_poll.
  - now apply wf_session_reopen_poll.
  - now apply wf_session_reset_poll.
  - now apply wf_session_clone.
Qed.

Lemma wf_session_preserved_witness :
  wf_session (clone 1 (session example_world)).2 /\
  wf_session (session (reset_poll 1 example_world).2).
Proof.
  pose proof (wf_session_preserved 0 1 example_world
                (example_session_wf example_poll)) as (_ & _ & H3 & H4).
  split; [exact H4 | exact H3].
Defined.

(** ** [has_date_option] and [get_formatted_due_date] *)

Lemma has_date_option_loop_true is_date options :
  has_date_option_loop is_date options = true <->
  exists r, r ∈ options /\ is_date r = true.
Proof.
  induction options as [|o l IH]; cbn.
  - split; [discriminate|]. intros (r & []%elem_of_nil & _).
  - destruct (is_date o) eqn:E.
    + split; [|reflexivity]. intros _. exists o. split; [left | exact E].
    + rewrite IH. split.
      * intros (r & Hr & Hd). exists r. split; [now right | exact Hd].
      * intros (r & [->|Hr]%elem_of_cons & Hd); [congruence|]. now exists r.
Qed.

(** X11.  [has_date_option] is true exactly when some option of the poll
    is a date, in whatever order the options are read; a poll without
    options has none. *)
Theorem has_date_option_iff (is_date : Z * PollOption -> bool)
    (s : Session) (self : PollId) :
  (has_date_option is_date s self = true <->
   exists r, r ∈ poll_options s /\ option_poll r.2 = self /\ is_date r = true) /\
  (has_date_option is_date s self = false <->
   forall r, r ∈ poll_options s -> option_poll r.2 = self -> is_date r = false) /\
  (Poll_options s self = [] -> has_date_option is_date s self = false).
Proof.
  assert (Ht : has_date_option is_date s self = true <->
    exists r, r ∈ poll_options s /\ option_poll r.2 = self /\ is_date r = true).
  { unfold has_date_option. rewrite has_date_option_loop_true. split.
    - intros (r & [Hr Hp]%Poll_options_elem & Hd). now exists r.
    - intros (r & Hr & Hp & Hd). exists r. split; [|exact Hd].
      now apply Poll_options_elem. }
  split; [exact Ht|]. split.
  - split.
    + intros Hf r Hr Hp. destruct (is_date r) eqn:E; [|reflexivity].
      assert (has_date_option is_date s self = true) by (apply Ht; eauto).
      congruence.
    + intros Hall. apply not_true_is_false. intros E.
      apply Ht in E as (r & Hr & Hp & Hd). rewrite (Hall r Hr Hp) in Hd. discriminate.
  - unfold has_date_option. now intros ->.
Qed.

(** X12.  No callback and no [clone] changes whether a poll of the session
    has a date option: [close_poll], [reopen_poll] and [reset_poll] leave the
    options as they are, and [clone] adds options to the new poll only. *)
Theorem has_date_option_unchanged (is_date : Z * PollOption -> bool)
    (now : Z) (poll other : PollId) (q : Poll) (w : World) :
  wf_session (session w) ->
  polls (session w) !! other = Some q ->
  has_date_option is_date (session (close_poll poll w).2) other =
    has_date_option is_date (session w) other /\
  has_date_option is_date (session (reopen_poll now poll w).2) other =
    has_date_option is_date (session w) other /\
  has_date_option is_date (session (reset_poll poll w).2) other =
    has_date_option is_date (session w) other /\
  has_date_option is_date (clone poll (session w)).2 other =
    has_date_option is_date (session w) other.
Proof.
  intros Hwf Hq. unfold has_date_option.
  destruct (polls (session w) !! poll) as [p|] eqn:E.
  - rewrite (close_poll_run poll p w E), (reset_poll_run poll p w E).
    rewrite (clone_run poll p _ E (wf_self_ne _ poll p Hwf E)). cbn [snd session].
    rewrite (Poll_options_cloned_other poll p (session w) other
               (wf_self_ne _ other q Hwf Hq)).
    destruct (results_visible p) eqn:Ev.
    + now rewrite (reopen_poll_visible now poll p w E Ev).
    + now rewrite (reopen_poll_hidden now poll p w E Ev).
  - now rewrite (close_poll_deleted poll w E), (reopen_poll_deleted now poll w E),
      (reset_poll_deleted poll w E), (clone_deleted poll _ E).
Qed.

Lemma has_date_option_unchanged_witness :
  has_date_option (fun r => r.1 =? 2) (clone 1 (session example_world)).2 1 =
  has_date_option (fun r => r.1 =? 2) (session example_world) 1.
Proof.
  apply (has_date_option_unchanged (fun r => r.1 =? 2) 0 1 1 example_poll example_world
           (example_session_wf example_poll) eq_refl).
Defined.

(** X13.  [get_formatted_due_date] fails exactly on a poll without a due
    date.  So it returns on a poll on which [set_due_date] has returned, with
    the date in the poll's own format; it fails on a poll that [reopen_poll]
    has reopened at or past its due date, and on every poll that [clone] has
    just created. *)
Theorem get_formatted_due_date_defined (strftime : Z -> string -> string)
    (now date : Z) (poll : PollId) (p : Poll) (w : World) :
  wf_session (session w) ->
  polls (session w) !! poll = Some p ->
  (get_formatted_due_date strftime p = None <-> due_date p = None) /\
  (forall p', set_due_date now date p = (Returned tt, p') ->
     get_formatted_due_date strftime p' =
       Some (strftime date (if european_date_format p
                            then "%d.%m.%Y %H:%M UTC"
                            else "%Y-%m-%d %H:%M UTC")%string)) /\
  (results_visible p = true ->
   (exists d, due_date p = Some d /\ d <= now) ->
   exists p',
     polls (session (reopen_poll now poll w).2) !! poll = Some p' /\
     get_formatted_due_date strftime p' = None) /\
  (exists c,
     polls (clone poll (session w)).2 !! poll_id_seq (session w) = Some c /\
     get_formatted_due_date strftime c = None).
Proof.
  intros Hwf H. unfold get_formatted_due_date. repeat split.
  - destruct (european_date_format p), (due_date p); cbn; congruence.
  - destruct (european_date_format p), (due_date p); cbn; congruence.
  - intros p' [_ ->]%set_due_date_returned_tier. cbn.
    destruct (european_date_format p); reflexivity.
  - intros Hv (d & Hd & Hle). exists (reopened now p).
    rewrite (reopen_poll_visible now poll p w H Hv). cbn [snd session polls set_polls].
    rewrite lookup_insert_eq. split; [reflexivity|].
    unfold reopened. rewrite Hd.
    destruct (Z.leb_spec d now); [|lia]. cbn.
    destruct (european_date_format p); reflexivity.
  - exists (clone_of p).
    rewrite (clone_run poll p _ H (wf_self_ne _ poll p Hwf H)). cbn [snd polls cloned].
    rewrite lookup_insert_eq. split; reflexivity.
Qed.

Lemma get_formatted_due_date_defined_witness :
  let w := {| session := set_polls {[ 1 := example_closed_poll ]} example_session;
              events := [] |} in
  is_Some (get_formatted_due_date (fun _ format => format) example_closed_poll) /\
  exists p',
    polls (session (reopen_poll 63840441600000000 1 w).2) !! 1 = Some p' /\
    get_formatted_due_date (fun _ format => format) p' = None.
Proof.
  intros w.
  pose proof (get_formatted_due_date_defined (fun _ format => format)
                63840441600000000 63840441600000000 1 example_closed_poll w
                (example_session_wf example_closed_poll) eq_refl)
    as (_ & _ & H & _).
  split; [eexists; reflexivity|].
  apply H; [reflexivity|]. exists 63840441600000000. split; [reflexivity | lia].
Defined.

(** ** More on cloning, and [clone_poll] *)

Lemma in_chat_session_run {A} (m : M Session A) c :
  in_chat_session m c =
  ((m (chat_session c)).1,
   {| chat_session := (m (chat_session c)).2; chat_events := chat_events c |}).
Proof. unfold in_chat_session. now destruct (m (chat_session c)). Qed.

Lemma clone_poll_run poll p c :
  polls (chat_session c) !! poll = Some p ->
  poll ≠ poll_id_seq (chat_session c) ->
  clone_poll poll c =
  (Returned tt,
   {| chat_session := cloned poll p (chat_session c);
      chat_events :=
        chat_events c ++
        [Callback Commit; SendPollMessage (poll_id_seq (chat_session c));
         Callback (QueryAnswer "callback.cloned" (user p))] |}).
Proof.
  intros H Hne. unfold clone_poll, chat_emit, modify.
  rewrite bind_run, in_chat_session_run, (clone_run poll p _ H Hne). cbn.
  rewrite bind_run. cbn. rewrite bind_run. cbn.
  rewrite bind_run, in_chat_session_run.
  erewrite getattr_run
    by (cbn [polls cloned chat_session]; rewrite lookup_insert_ne by done; exact H).
  cbn. now rewrite <- !app_assoc.
Qed.

Lemma clone_poll_deleted poll c :
  polls (chat_session c) !! poll = None ->
  clone_poll poll c = (Raised ObjectDeletedError, c).
Proof.
  intros H. unfold clone_poll.
  rewrite bind_run, in_chat_session_run, (clone_deleted poll _ H). cbn.
  now destruct c.
Qed.

(** X14.  A clone can be cloned: [clone] of the poll that [clone] has just
    returned returns the next handle; the second clone has the columns of the
    first and the option names of the source, in their order, in as many
    rows of its own; the source and the first clone keep their columns and
    their options. *)
Theorem clone_of_clone (self : PollId) (p : Poll) (s : Session) :
  wf_session s ->
  polls s !! self = Some p ->
  let new := poll_id_seq s in
  let s1 := (clone self s).2 in
  let s2 := ((new ← clone self; clone new) s).2 in
  ((new ← clone self; clone new) s).1 = Returned (new + 1) /\
  polls s2 !! (new + 1) = polls s1 !! new /\
  is_Some (polls s1 !! new) /\
  map (fun r => option_name r.2) (Poll_options s2 (new + 1)) =
    map (fun r => option_name r.2) (Poll_options s self) /\
  Forall (fun r => option_poll r.2 = new + 1) (Poll_options s2 (new + 1)) /\
  (forall r r', r ∈ Poll_options s2 (new + 1) ->
     r' ∈ Poll_options s2 new \/ r' ∈ Poll_options s2 self -> r.1 <> r'.1) /\
  polls s2 !! new = polls s1 !! new /\
  polls s2 !! self = Some p /\
  Poll_options s2 new = Poll_options s1 new /\
  Poll_options s2 self = Poll_options s self.
Proof.
  intros Hwf H new s1 s2. subst new s1 s2.
  pose proof (wf_self_ne s self p Hwf H) as Hne.
  pose proof (wf_session_clone self s Hwf) as Hwf1.
  rewrite bind_run, (clone_run self p s H Hne) in *. cbn [fst snd] in *.
  assert (H1 : polls (cloned self p s) !! poll_id_seq s = Some (clone_of p))
    by (cbn [polls cloned]; apply lookup_insert_eq).
  assert (Hne1 : poll_id_seq s ≠ poll_id_seq (cloned self p s))
    by (cbn [poll_id_seq cloned]; lia).
  assert (Hne2 : self ≠ poll_id_seq (cloned self p s))
    by (apply (wf_poll_keys s Hwf) in H; cbn [poll_id_seq cloned]; lia).
  rewrite (clone_run _ _ _ H1 Hne1). cbn [fst snd].
  pose proof (Poll_options_cloned_new (poll_id_seq s) (clone_of p) _ Hwf1) as Hnew.
  pose proof (Poll_options_cloned_other (poll_id_seq s) (clone_of p) _ _ Hne1) as Hfst.
  pose proof (Poll_options_cloned_other (poll_id_seq s) (clone_of p) _ _ Hne2) as Hsrc.
  rewrite (Poll_options_cloned_other self p s self Hne) in Hsrc.
  change (poll_id_seq (cloned self p s)) with (poll_id_seq s + 1) in *.
  rewrite Hnew, Hfst, Hsrc.
  split; [reflexivity|]. split; [|split; [|split; [|split; [|split; [|split; [|split]]]]]].
  - rewrite H1. apply lookup_insert_eq.
  - eauto.
  - rewrite rows_from_map_snd, clone_options_names.
    rewrite (Poll_options_cloned_new self p s Hwf).
    rewrite rows_from_map_snd. apply clone_options_names.
  - apply Forall_forall. intros r Hr%rows_from_elem_snd.
    eapply clone_options_poll, Hr.
  - intros r r' Hr%rows_from_fst_ge Hr' E.
    assert (Hr1 : r' ∈ poll_options (cloned self p s)).
    { destruct Hr' as [Hr'|Hr'].
      - now apply Poll_options_elem in Hr' as [Hr' _].
      - rewrite <- (Poll_options_cloned_other self p s self Hne) in Hr'.
        now apply Poll_options_elem in Hr' as [Hr' _]. }
    pose proof (wf_option_keys _ Hwf1) as Hk. rewrite Forall_forall in Hk.
    apply Hk in Hr1. lia.
  - apply lookup_insert_ne. cbn [poll_id_seq cloned]. lia.
  - etransitivity; [apply lookup_insert_ne; cbn [poll_id_seq cloned]; congruence|].
    etransitivity; [apply lookup_insert_ne; congruence | exact H].
  - split; reflexivity.
Qed.

Lemma clone_of_clone_witness :
  let s := set_polls {[ 1 := example_closed_poll ]} example_session in
  ((new ← clone 1; clone new) s).1 = Returned 3 /\
  map (fun r => option_name r.2)
    (Poll_options ((new ← clone 1; clone new) s).2 3) = ["Pizza"; "Sushi"]%string /\
  polls ((new ← clone 1; clone new) s).2 !! 1 = Some example_closed_poll.
Proof.
  intros s.
  pose proof (clone_of_clone 1 example_closed_poll s
                (example_session_wf example_closed_poll) eq_refl) as H.
  cbv zeta in H. destruct H as (H1 & _ & _ & H2 & _ & _ & _ & H3 & _).
  split; [exact H1|]. split; [etransitivity; [exact H2 | reflexivity] | exact H3].
Defined.

(** X15.  [clone_poll] returns on every poll of a well-formed session.  The
    session it leaves is the one that [clone] leaves; it commits once, then
    sends one message, for the new poll and not for the source, then answers
    the query with the text "callback.cloned" for the user of the source, and
    emits nothing else.  The session is well formed again, and it keeps the
    invariant of the notification. *)
Theorem clone_poll_sends_new_poll (poll : PollId) (p : Poll) (c : Chat) :
  wf_session (chat_session c) ->
  polls (chat_session c) !! poll = Some p ->
  let new := poll_id_seq (chat_session c) in
  let c' := (clone_poll poll c).2 in
  (clone_poll poll c).1 = Returned tt /\
  chat_session c' = (clone poll (chat_session c)).2 /\
  (clone poll (chat_session c)).1 = Returned new /\
  chat_events c' =
    chat_events c ++
    [Callback Commit; SendPollMessage new;
     Callback (QueryAnswer "callback.cloned" (user p))] /\
  (SendPollMessage poll ∉ drop (length (chat_events c)) (chat_events c')) /\
  is_Some (polls (chat_session c') !! new) /\
  polls (chat_session c') !! poll = Some p /\
  wf_session (chat_session c') /\
  (session_invariant (chat_session c) -> session_invariant (chat_session c')).
Proof.
  intros Hwf H new c'. subst new c'.
  pose proof (wf_self_ne _ poll p Hwf H) as Hne.
  pose proof (wf_session_clone poll _ Hwf) as Hwf'.
  pose proof (session_invariant_clone poll _ Hwf) as Hinv.
  rewrite (clone_poll_run poll p c H Hne).
  rewrite (clone_run poll p _ H Hne) in *.
  cbn [fst snd chat_session chat_events] in *.
  do 4 (split; [reflexivity|]).
  split; [|split; [|split; [|split; assumption]]].
  - rewrite drop_app_length. intros Hin.
    repeat (apply elem_of_cons in Hin as [Hin|Hin]; [congruence|]).
    now apply elem_of_nil in Hin.
  - cbn [polls cloned]. rewrite lookup_insert_eq. eauto.
  - cbn [polls cloned]. rewrite lookup_insert_ne by congruence. exact H.
Qed.

Lemma clone_poll_sends_new_poll_witness :
  let c := {| chat_session := example_session; chat_events := [] |} in
  (clone_poll 1 c).1 = Returned tt /\
  chat_events (clone_poll 1 c).2 =
    [Callback Commit; SendPollMessage 2;
     Callback (QueryAnswer "callback.cloned" 7)] /\
  wf_session (chat_session (clone_poll 1 c).2).
Proof.
  intros c.
  pose proof (clone_poll_sends_new_poll 1 example_poll c
                (example_session_wf example_poll) eq_refl) as H.
  cbv zeta in H. destruct H as (H1 & _ & _ & H2 & _ & _ & _ & H3 & _).
  split; [exact H1|]. split; [exact H2 | exact H3].
Defined.

(** X16.  Whether the results of a poll are shown, along its life:
    [close_poll] makes [should_show_result] true, whatever the poll was;
    [reopen_poll], at any time and with visible or hidden results, leaves the
    value of [should_show_result] as it was, and so does [reset_poll]; and
    the poll that [clone] creates shows its results exactly when
    [results_visible] of the source is set, also when the source is closed. *)
Theorem should_show_result_life_cycle (now : Z) (poll : PollId) (p : Poll) (w : World) :
  wf_session (session w) ->
  polls (session w) !! poll = Some p ->
  should_show_result <$> polls (session (close_poll poll w).2) !! poll = Some true /\
  should_show_result <$> polls (session (reopen_poll now poll w).2) !! poll =
    Some (should_show_result p) /\
  should_show_result <$> polls (session (reset_poll poll w).2) !! poll =
    Some (should_show_result p) /\
  should_show_result <$> polls (clone poll (session w)).2 !! poll_id_seq (session w) =
    Some (results_visible p).
Proof.
  intros Hwf H.
  rewrite (close_poll_run poll p w H), (reset_poll_run poll p w H).
  rewrite (clone_run poll p _ H (wf_self_ne _ poll p Hwf H)).
  cbn [snd session polls set_polls cloned without_votes set_votes].
  rewrite !lookup_insert_eq, H. unfold should_show_result. cbn.
  rewrite orb_true_r, orb_false_r. repeat split.
  destruct (results_visible p) eqn:Ev.
  - rewrite (reopen_poll_visible now poll p w H Ev).
    cbn [snd session polls set_polls]. rewrite lookup_insert_eq. cbn.
    unfold reopened.
    destruct (due_date p) as [d|]; [destruct (d <=? now)|]; cbn; now rewrite Ev.
  - rewrite (reopen_poll_hidden now poll p w H Ev). cbn [snd session].
    rewrite H. cbn. now rewrite Ev.
Qed.

Lemma should_show_result_life_cycle_witness :
  let p := set_results_visible false example_closed_poll in
  let w := {| session := set_polls {[ 1 := p ]} example_session; events := [] |} in
  should_show_result p = true /\
  should_show_result <$> polls (session (reopen_poll 0 1 w).2) !! 1 = Some true /\
  should_show_result <$> polls (clone 1 (session w)).2 !! 2 = Some false.
Proof.
  intros p w.
  pose proof (should_show_result_life_cycle 0 1 p w (example_session_wf p) eq_refl)
    as (_ & H2 & _ & H4).
  split; [reflexivity|]. split; [exact H2 | exact H4].
Defined.
